(** * libnetwork agent: cluster membership and state synchronisation

    A shallow embedding of [agent.go].  The controller, its optional
    [agent] and the distributed table store the agent owns form the state
    that every operation threads; each call into an external collaborator
    (the table store, a driver, the service-binding and name-record
    bookkeeping, the logger) is appended to a trace, so that "this
    operation makes no store call" is a statement about that trace. *)

From Stdlib Require Import Strings.Byte Strings.String.
From stdpp Require Import base strings list gmap.

(** ** Go values *)

(** [[]byte] *)
Definition bytes := list byte.

#[global] Instance byte_eq_decision : EqDecision byte := Byte.byte_eq_dec.

(** Go's [error] interface, kept as the message it carries; a nil error
    is [None] of [option error]. *)
Definition error := string.

(** [net.IP] is a byte slice; the nil slice is [[]]. *)
Definition IP := list byte.

(** [net.IPNet] *)
Record IPNet := { IPNet_IP : IP; IPNet_Mask : list byte }.

(** A [(T, error)] return pair of which exactly one side is meaningful. *)
Inductive result (A : Type) :=
| Ok (a : A)
| Err (e : error).
Arguments Ok {A} a.
Arguments Err {A} e.

(** [datastore.GlobalScope] *)
Definition GlobalScope : string := "global".

(** ** Wire entities *)

Inductive Protocol := TCP | UDP.

(** Modelled from the spec: the [PortConfig] message of agent.proto, one
    element of the ordered ingress-port list ("protocol, published-port,
    target-port"). *)
Record PortConfig := {
  PortConfig_Name : string;
  PortConfig_Protocol : Protocol;
  TargetPort : N;
  PublishedPort : N
}.

(** Modelled from the spec: the [EndpointRecord] message of agent.proto,
    the only payload stored under the table "endpoint_table". *)
Record EndpointRecord := {
  Name : string;
  ServiceName : string;
  ServiceID : string;
  VirtualIP : string;
  IngressPorts : list PortConfig;
  EndpointIP : string
}.

(** ** Table events of the distributed store *)

(** The fields shared by [networkdb.CreateEvent], [DeleteEvent] and
    [UpdateEvent]. *)
Record TableEvent := {
  Table : string;
  NetworkID : string;
  Key : string;
  Value : bytes
}.

(** [events.Event] as the closed variant the type switches range over. *)
Inductive Event :=
| CreateEvent (event : TableEvent)
| DeleteEvent (event : TableEvent)
| UpdateEvent (event : TableEvent).

(** [driverapi.EventType] *)
Inductive EventType := Create | Delete.

(** ** Networks and endpoints, by their cluster-relevant fields *)

Record network := {
  ID : string;
  networkType : string;
  driverScope : string;
  ingress : bool;
  driverTables : list string
}.

Record tableEntry := {
  tableName : string;
  key : string;
  value : bytes
}.

Record endpointJoinInfo := {
  driverTableEntries : list tableEntry
}.

(** [Iface_Address] stands for [ep.Iface().Address()], a [*net.IPNet];
    [joinInfo] is the pointer [ep.joinInfo]. *)
Record endpoint := {
  ep_ID : string;
  ep_Name : string;
  isAnonymous : bool;
  svcName : string;
  svcID : string;
  virtualIP : IP;
  ingressPorts : list PortConfig;
  Iface_Address : option IPNet;
  joinInfo : option endpointJoinInfo;
  getNetwork : network
}.

(** ** The distributed table store *)

(** A cancellation function returned by [Watch] is identified by the
    number of the watch it cancels; so is the watch's channel. *)
Definition handle := nat.

(** Modelled from the spec: [networkdb.NetworkDB], the table store keyed
    by (table-name, network-scope-id, record-key), with its watch
    subscriptions and the namespaces this node has joined. *)
Record NetworkDB := {
  entries : gmap (string * string * string) bytes;
  watches : gmap handle (string * string * string);
  nextWatch : handle;
  joined : gset string
}.

(** [networkdb.Config] *)
Record Config := { BindAddr : string; NodeName : string }.

(** ** The agent and its controller *)

Record agent := {
  networkDB : NetworkDB;
  bindAddr : string;
  epTblCancel : handle;
  driverCancelFuncs : gmap string (list handle)
}.

(** [isAgent] is [c.isAgent()], read from the configuration; [networks]
    is what [c.NetworkByID] looks into. *)
Record controller := {
  isAgent : bool;
  c_agent : option agent;
  networks : gmap string network
}.

(** ** Observable actions *)

(** The function a dispatch loop was started with. *)
Inductive Handler :=
| handleEpTableEvent_fn
| handleDriverTableEvent_fn (nid : string).

Inductive Action :=
(* the distributed store *)
| CallNew (cfg : Config)
| CallJoin (remote : string)
| CallJoinNetwork (nid : string)
| CallLeaveNetwork (nid : string)
| CallCreateEntry (tname nid key : string) (value : bytes)
| CallDeleteEntry (tname nid key : string)
| CallWatch (tname nid key : string) (h : handle)
| CallWalkTable (tname : string)
| CallCancel (h : handle)
| CallClose
(* goroutines *)
| GoHandleTableEvents (ch : handle) (fn : Handler)
(* service bindings and name records *)
| CallAddServiceBinding (svcName svcID nid eid : string) (vip : IP)
                        (ingressPorts : list PortConfig) (ip : IP)
| CallRmServiceBinding (svcName svcID nid eid : string) (vip : IP)
                       (ingressPorts : list PortConfig) (ip : IP)
| CallAddSvcRecords (nid name : string) (ip : IP)
| CallDeleteSvcRecords (nid name : string) (ip : IP)
(* drivers and networks *)
| CallDriver (nid : string)
| CallEventNotify (etype : EventType) (nid tname key : string) (value : bytes)
| CallDiscoverNew (address : string)
| CallNetworkByID (nid : string)
(* serialisation *)
| CallMarshal (rec : EndpointRecord)
| CallUnmarshal (value : bytes)
(* the controller mutex and the map it guards *)
| Lock
| Unlock
| LoadCancelFuncs (nid : string)
| StoreCancelFuncs (nid : string)
| DeleteCancelFuncs (nid : string)
(* logrus.Errorf, by its format string *)
| Errorf (format : string).

(** ** The state *)

Record World := {
  ctrl : controller;
  trace : list Action
}.

(** ** Interfaces and addresses of the host *)

Inductive Addr :=
| Addr_IPNet (a : IPNet)
| Addr_other.

(** [net.Interface], with what [iface.Addrs()] returns. *)
Record Interface := { Addrs : result (list Addr) }.

(** ** External collaborators

    What the code consumes and this file does not define: Go's [net] and
    [os] packages, the protobuf codec, and the verdict of every fallible
    call into the store, the service-binding bookkeeping and the driver
    registry.  [returns] is consulted with the state at the moment of the
    call, so a collaborator may fail depending on everything that was
    done before. *)
Record Collaborators := {
  ParseIP : string → IP;
  IP_String : IP → string;
  IsLinkLocalUnicast : IP → bool;
  InterfaceByName : string → result Interface;
  Hostname : string;
  Marshal : EndpointRecord → result bytes;
  Unmarshal : bytes → result EndpointRecord;
  returns : World → Action → option error
}.

(** ** A state monad with panics *)

Inductive Res (A : Type) :=
| Done (a : A) (w : World)
| Panicked (w : World).
Arguments Done {A} a w.
Arguments Panicked {A} w.

Definition M (A : Type) : Type := World → Res A.

#[global] Instance M_ret : MRet M := λ A a w, Done a w.

#[global] Instance M_bind : MBind M := λ A B f m w,
  match m w with
  | Done a w' => f a w'
  | Panicked w' => Panicked w'
  end.

Definition get : M World := λ w, Done w w.

Definition put (w : World) : M unit := λ _, Done tt w.

(** A nil-pointer dereference. *)
Definition panic {A : Type} : M A := λ w, Panicked w.

(** Make one observable action. *)
Definition call (a : Action) : M unit := λ w,
  Done tt {| ctrl := ctrl w; trace := trace w ++ [a] |}.

Definition set_agent (a : option agent) : M unit := λ w,
  Done tt {| ctrl := {| isAgent := isAgent (ctrl w);
                        c_agent := a;
                        networks := networks (ctrl w) |};
             trace := trace w |}.

(** [c.agent.…]: the dereference panics when [c.agent] is nil. *)
Definition the_agent : M agent := λ w,
  match c_agent (ctrl w) with
  | Some a => Done a w
  | None => Panicked w
  end.

Definition set_networkDB (db : NetworkDB) : M unit :=
  a ← the_agent;
  set_agent (Some {| networkDB := db;
                     bindAddr := bindAddr a;
                     epTblCancel := epTblCancel a;
                     driverCancelFuncs := driverCancelFuncs a |}).

Definition set_driverCancelFuncs (m : gmap string (list handle)) : M unit :=
  a ← the_agent;
  set_agent (Some {| networkDB := networkDB a;
                     bindAddr := bindAddr a;
                     epTblCancel := epTblCancel a;
                     driverCancelFuncs := m |}).

(** The result of an action and the trace it ran up. *)
Definition returned {A : Type} (r : Res A) : option A :=
  match r with Done a _ => Some a | Panicked _ => None end.

Definition world_of {A : Type} (r : Res A) : World :=
  match r with Done _ w => w | Panicked w => w end.

Definition panicked {A : Type} (r : Res A) : bool :=
  match r with Done _ _ => false | Panicked _ => true end.

(** [if err := m; err != nil { return err }; k] *)
Notation "'check' m ; k" :=
  (mbind (λ err : option error,
            match err with
            | Some e => mret (Some e)
            | None => k
            end) m)
  (at level 20, m at level 100, k at level 200, only parsing) : stdpp_scope.

(** ** The store's operations on its own state *)

Definition NetworkDB_empty : NetworkDB :=
  {| entries := ∅; watches := ∅; nextWatch := 0; joined := ∅ |}.

Definition NetworkDB_set_entries (m : gmap (string * string * string) bytes)
    (db : NetworkDB) : NetworkDB :=
  {| entries := m; watches := watches db;
     nextWatch := nextWatch db; joined := joined db |}.

Definition NetworkDB_set_joined (s : gset string) (db : NetworkDB) : NetworkDB :=
  {| entries := entries db; watches := watches db;
     nextWatch := nextWatch db; joined := s |}.

Definition NetworkDB_set_watches (m : gmap handle (string * string * string))
    (db : NetworkDB) : NetworkDB :=
  {| entries := entries db; watches := m;
     nextWatch := nextWatch db; joined := joined db |}.

(** Modelled from the spec: [store.Watch(table, scopeID, key)] opens a
    subscription and hands back its channel and cancel function, both
    named by the fresh handle. *)
Definition NetworkDB_Watch (tname nid key : string) (db : NetworkDB)
    : handle * NetworkDB :=
  (nextWatch db,
   {| entries := entries db;
      watches := <[nextWatch db := (tname, nid, key)]> (watches db);
      nextWatch := S (nextWatch db);
      joined := joined db |}).

(** Modelled from the spec: [store.WalkTable(table, visit)] visits the
    current contents of one table; the visitor is handed the scope id,
    the key and the value of each entry, whatever network it is in. *)
Definition in_table (tname : string) (e : (string * string * string) * bytes)
    : option (string * string * bytes) :=
  if decide (e.1.1.1 = tname) then Some (e.1.1.2, e.1.2, e.2) else None.

Definition table_entries (tname : string)
    (es : gmap (string * string * string) bytes)
    : list (string * string * bytes) :=
  omap (in_table tname) (map_to_list es).

Definition NetworkDB_table (tname : string) (db : NetworkDB)
    : list (string * string * bytes) :=
  table_entries tname (entries db).

Section Agent.
Context (X : Collaborators).

(** *** Calls into the store through [c.agent.networkDB] *)

(** A fallible store call: the store is reached through [c.agent], the
    call is observed, and on success [f] is its effect on the store. *)
Definition store_call (a : Action) (f : NetworkDB → NetworkDB)
    : M (option error) :=
  ag ← the_agent;
  w ← get;
  call a;;
  match returns X w a with
  | Some err => mret (Some err)
  | None => set_networkDB (f (networkDB ag));; mret None
  end.

(** Modelled from the spec: [store.Join], [store.JoinNetwork],
    [store.LeaveNetwork], [store.CreateEntry] and [store.DeleteEntry];
    a call that returns nil has taken effect, one that returns an error
    has left the store as it was.  Of [Join], [JoinNetwork] and
    [LeaveNetwork] only the call and the membership are modelled: what
    merging with the cluster, or joining and leaving a network, brings
    into or takes out of the local entries is the store's own protocol,
    and no statement below is about the entries after such a call. *)
Definition Join (remote : string) : M (option error) :=
  store_call (CallJoin remote) id.

Definition JoinNetwork (nid : string) : M (option error) :=
  store_call (CallJoinNetwork nid)
             (λ db, NetworkDB_set_joined ({[nid]} ∪ joined db) db).

Definition LeaveNetwork (nid : string) : M (option error) :=
  store_call (CallLeaveNetwork nid)
             (λ db, NetworkDB_set_joined (joined db ∖ {[nid]}) db).

Definition CreateEntry (tname nid key : string) (value : bytes)
    : M (option error) :=
  store_call (CallCreateEntry tname nid key value)
             (λ db, NetworkDB_set_entries
                      (<[(tname, nid, key) := value]> (entries db)) db).

Definition DeleteEntry (tname nid key : string) : M (option error) :=
  store_call (CallDeleteEntry tname nid key)
             (λ db, NetworkDB_set_entries
                      (delete (tname, nid, key) (entries db)) db).

Definition Watch (tname nid key : string) : M handle :=
  ag ← the_agent;
  let '(h, db) := NetworkDB_Watch tname nid key (networkDB ag) in
  call (CallWatch tname nid key h);;
  set_networkDB db;;
  mret h.

(** The visitor's result [true] stops the walk. *)
Fixpoint walk (fn : string → string → bytes → M bool)
    (es : list (string * string * bytes)) : M unit :=
  match es with
  | [] => mret tt
  | (nid, key, value) :: es =>
      stop ← fn nid key value;
      if stop : bool then mret tt else walk fn es
  end.

Definition WalkTable (tname : string)
    (fn : string → string → bytes → M bool) : M unit :=
  ag ← the_agent;
  call (CallWalkTable tname);;
  walk fn (NetworkDB_table tname (networkDB ag)).

(** Modelled from the spec: invoking a watch's cancel function closes
    the subscription.  The function holds the store itself, not
    [c.agent]. *)
Definition cancel (h : handle) : M unit :=
  call (CallCancel h);;
  w ← get;
  match c_agent (ctrl w) with
  | Some ag =>
      set_networkDB (NetworkDB_set_watches (delete h (watches (networkDB ag)))
                                           (networkDB ag))
  | None => mret tt
  end.

(** *** Calls into the controller's other collaborators *)

Definition fallible (a : Action) : M (option error) :=
  w ← get;
  call a;;
  mret (returns X w a).

Definition addServiceBinding (name sid nid eid : string) (vip : IP)
    (ports : list PortConfig) (ip : IP) : M (option error) :=
  fallible (CallAddServiceBinding name sid nid eid vip ports ip).

Definition rmServiceBinding (name sid nid eid : string) (vip : IP)
    (ports : list PortConfig) (ip : IP) : M (option error) :=
  fallible (CallRmServiceBinding name sid nid eid vip ports ip).

(** [n.driver(false)]: nil when the network's driver resolves. *)
Definition driver (n : network) : M (option error) :=
  fallible (CallDriver (ID n)).

(** Modelled from the spec: [c.NetworkByID] looks the network up by
    its id and fails when there is none. *)
Definition NetworkByID (nid : string) : M (result network) :=
  w ← get;
  call (CallNetworkByID nid);;
  match networks (ctrl w) !! nid with
  | Some n => mret (Ok n)
  | None => mret (Err ("network " +:+ nid +:+ " not found"))
  end.

Definition getController : M controller := λ w, Done (ctrl w) w.

(** *** agent.go *)

(** The loop of [getBindAddr] over [iface.Addrs()]. *)
Fixpoint getBindAddr_range (addrs : list Addr) : result string :=
  match addrs with
  | [] => Err "failed to get bind address"
  | Addr_other :: addrs => getBindAddr_range addrs
  | Addr_IPNet addr :: addrs =>
      let addrIP := IPNet_IP addr in
      if IsLinkLocalUnicast X addrIP then getBindAddr_range addrs
      else Ok (IP_String X addrIP)
  end.

Definition getBindAddr (ifaceName : string) : result string :=
  match InterfaceByName X ifaceName with
  | Err err => Err ("failed to find interface " +:+ ifaceName +:+ ": " +:+ err)
  | Ok iface =>
      match Addrs iface with
      | Err err => Err ("failed to get interface addresses: " +:+ err)
      | Ok addrs => getBindAddr_range addrs
      end
  end.

Definition resolveAddr (addrOrInterface : string) : result string :=
  if decide (ParseIP X addrOrInterface ≠ []) then Ok addrOrInterface
  else getBindAddr addrOrInterface.

Definition agentInit (bindAddrOrInterface : string) : M (option error) :=
  c ← getController;
  if negb (isAgent c) then mret None else
  match resolveAddr bindAddrOrInterface with
  | Err err => mret (Some err)
  | Ok bindAddr =>
      let cfg := {| BindAddr := bindAddr; NodeName := Hostname X |} in
      err ← fallible (CallNew cfg);
      match err with
      | Some err => mret (Some err)
      | None =>
          let '(cancel, nDB) :=
            NetworkDB_Watch "endpoint_table" "" "" NetworkDB_empty in
          call (CallWatch "endpoint_table" "" "" cancel);;
          set_agent (Some {| networkDB := nDB;
                             bindAddr := bindAddr;
                             epTblCancel := cancel;
                             driverCancelFuncs := ∅ |});;
          call (GoHandleTableEvents cancel handleEpTableEvent_fn);;
          mret None
      end
  end.

Definition agentJoin (remote : string) : M (option error) :=
  c ← getController;
  match c_agent c with
  | None => mret None
  | Some _ => Join remote
  end.

(** The driver [d] is told the node's own address. *)
Definition agentDriverNotify : M unit :=
  c ← getController;
  match c_agent c with
  | None => mret tt
  | Some ag => call (CallDiscoverNew (bindAddr ag))
  end.

Fixpoint range_cancel (cancelFuncs : list handle) : M unit :=
  match cancelFuncs with
  | [] => mret tt
  | cancel_fn :: cancelFuncs => cancel cancel_fn;; range_cancel cancelFuncs
  end.

Definition agentClose : M unit :=
  c ← getController;
  match c_agent c with
  | None => mret tt
  | Some ag =>
      range_cancel (concat (map snd (map_to_list (driverCancelFuncs ag))));;
      cancel (epTblCancel ag);;
      call CallClose;;
      set_agent None
  end.

Definition isClusterEligible (c : controller) (n : network) : bool :=
  if decide (driverScope n ≠ GlobalScope) then false
  else match c_agent c with
       | None => false
       | Some _ => true
       end.

Definition joinCluster (n : network) : M (option error) :=
  c ← getController;
  if negb (isClusterEligible c n) then mret None else
  JoinNetwork (ID n).

Definition leaveCluster (n : network) : M (option error) :=
  c ← getController;
  if negb (isClusterEligible c n) then mret None else
  LeaveNetwork (ID n).

(** [for _, te := range entries { if err := CreateEntry(...) ... }] *)
Fixpoint range_CreateEntry (n : network) (tes : list tableEntry)
    : M (option error) :=
  match tes with
  | [] => mret None
  | te :: tes =>
      check CreateEntry (tableName te) (ID n) (key te) (value te);
      range_CreateEntry n tes
  end.

Fixpoint range_DeleteEntry (n : network) (tes : list tableEntry)
    : M (option error) :=
  match tes with
  | [] => mret None
  | te :: tes =>
      check DeleteEntry (tableName te) (ID n) (key te);
      range_DeleteEntry n tes
  end.

(** The ports gossiped for an endpoint: its own in the ingress
    network, none elsewhere. *)
Definition ingressPorts_in (n : network) (ep : endpoint) : list PortConfig :=
  if ingress n then ingressPorts ep else [].

Definition addToCluster (ep : endpoint) : M (option error) :=
  let n := getNetwork ep in
  c ← getController;
  if negb (isClusterEligible c n) then mret None else
  (* [ep.joinInfo.driverTableEntries] dereferences [ep.joinInfo] *)
  let driver_entries : M (option error) :=
    match joinInfo ep with
    | None => panic
    | Some ji => range_CreateEntry n (driverTableEntries ji)
    end in
  match isAnonymous ep, Iface_Address ep with
  | false, Some address =>
      let ports :=
        if decide (svcID ep ≠ "") then ingressPorts_in n ep else [] in
      check (if decide (svcID ep ≠ "")
             then addServiceBinding (svcName ep) (svcID ep) (ID n) (ep_ID ep)
                    (virtualIP ep) ports (IPNet_IP address)
             else mret None);
      let rec := {| Name := ep_Name ep;
                    ServiceName := svcName ep;
                    ServiceID := svcID ep;
                    VirtualIP := IP_String X (virtualIP ep);
                    IngressPorts := ports;
                    EndpointIP := IP_String X (IPNet_IP address) |} in
      call (CallMarshal rec);;
      match Marshal X rec with
      | Err err => mret (Some err)
      | Ok buf =>
          check CreateEntry "endpoint_table" (ID n) (ep_ID ep) buf;
          driver_entries
      end
  | _, _ => driver_entries
  end.

Definition deleteFromCluster (ep : endpoint) : M (option error) :=
  let n := getNetwork ep in
  c ← getController;
  if negb (isClusterEligible c n) then mret None else
  let driver_entries : M (option error) :=
    match joinInfo ep with
    | None => mret None
    | Some ji => range_DeleteEntry n (driverTableEntries ji)
    end in
  if negb (isAnonymous ep) then
    check (match decide (svcID ep ≠ ""), Iface_Address ep with
           | left _, Some address =>
               rmServiceBinding (svcName ep) (svcID ep) (ID n) (ep_ID ep)
                 (virtualIP ep) (ingressPorts_in n ep) (IPNet_IP address)
           | _, _ => mret None
           end);
    check DeleteEntry "endpoint_table" (ID n) (ep_ID ep);
    driver_entries
  else driver_entries.

(** The visitor [addDriverWatches] walks a table with. *)
Definition notify_Create (n : network) (tableName : string)
    (nid key : string) (value : bytes) : M bool :=
  call (CallEventNotify Create (ID n) tableName key value);;
  mret false.

Fixpoint addDriverWatches_range (n : network) (tables : list string)
    : M unit :=
  match tables with
  | [] => mret tt
  | tableName :: tables =>
      cancel_fn ← Watch tableName (ID n) "";
      call Lock;;
      ag ← the_agent;
      call (LoadCancelFuncs (ID n));;
      call (StoreCancelFuncs (ID n));;
      set_driverCancelFuncs
        (<[ID n := default [] (driverCancelFuncs ag !! ID n) ++ [cancel_fn]]>
           (driverCancelFuncs ag));;
      call Unlock;;
      call (GoHandleTableEvents cancel_fn (handleDriverTableEvent_fn (ID n)));;
      err ← driver n;
      match err with
      | Some _ =>
          call (Errorf "Could not resolve driver %s while walking driver tabl: %v")
      | None =>
          WalkTable tableName (notify_Create n tableName);;
          addDriverWatches_range n tables
      end
  end.

Definition addDriverWatches (n : network) : M unit :=
  c ← getController;
  if negb (isClusterEligible c n) then mret tt else
  addDriverWatches_range n (driverTables n).

Definition cancelDriverWatches (n : network) : M unit :=
  c ← getController;
  if negb (isClusterEligible c n) then mret tt else
  call Lock;;
  ag ← the_agent;
  call (LoadCancelFuncs (ID n));;
  let cancelFuncs := default [] (driverCancelFuncs ag !! ID n) in
  call (DeleteCancelFuncs (ID n));;
  set_driverCancelFuncs (delete (ID n) (driverCancelFuncs ag));;
  call Unlock;;
  range_cancel cancelFuncs.

(** The dispatch loop; [ch] is what the channel delivers until it is
    closed. *)
Fixpoint handleTableEvents (ch : list Event) (fn : Event → M unit) : M unit :=
  match ch with
  | [] => mret tt
  | ev :: ch => fn ev;; handleTableEvents ch fn
  end.

Definition handleDriverTableEvent (n : network) (ev : Event) : M unit :=
  err ← driver n;
  match err with
  | Some _ =>
      call (Errorf "Could not resolve driver %s while handling driver table event: %v")
  | None =>
      let '(etype, tname, key, value) :=
        match ev with
        | CreateEvent event => (Create, Table event, Key event, Value event)
        | DeleteEvent event => (Delete, Table event, Key event, Value event)
        | UpdateEvent event => (Delete, Table event, Key event, Value event)
        end in
      call (CallEventNotify etype (ID n) tname key value)
  end.

(** [handleEpTableEvent] from the network lookup on, with the locals the
    type switch has set. *)
Definition handleEpTableEvent_lookup (nid eid : string) (value : bytes)
    (isAdd : bool) : M unit :=
  nw ← NetworkByID nid;
  match nw with
  | Err _ =>
      call (Errorf "Could not find network %s while handling service table event: %v")
  | Ok n =>
      call (CallUnmarshal value);;
      match Unmarshal X value with
      | Err _ => call (Errorf "Failed to unmarshal service table value: %v")
      | Ok epRec =>
          let name := Name epRec in
          let svcName := ServiceName epRec in
          let svcID := ServiceID epRec in
          let vip := ParseIP X (VirtualIP epRec) in
          let ip := ParseIP X (EndpointIP epRec) in
          let ingressPorts := IngressPorts epRec in
          if bool_decide (name = "") || bool_decide (ip = []) then
            call (Errorf "Invalid endpoint name/ip received while handling service table event %s")
          else if isAdd then
            err ← (if decide (svcID ≠ "")
                   then addServiceBinding svcName svcID nid eid vip ingressPorts ip
                   else mret None);
            match err with
            | Some _ => call (Errorf "Failed adding service binding for value %s: %v")
            | None => call (CallAddSvcRecords (ID n) name ip)
            end
          else
            err ← (if decide (svcID ≠ "")
                   then rmServiceBinding svcName svcID nid eid vip ingressPorts ip
                   else mret None);
            match err with
            | Some _ => call (Errorf "Failed adding service binding for value %s: %v")
            | None => call (CallDeleteSvcRecords (ID n) name ip)
            end
      end
  end.

(** The [Update] case logs and has no [return]: the lookup that follows
    runs with the zero values of [nid], [eid], [value] and [isAdd]. *)
Definition handleEpTableEvent (ev : Event) : M unit :=
  '(nid, eid, value, isAdd) ←
    match ev with
    | CreateEvent event =>
        mret (NetworkID event, Key event, Value event, true)
    | DeleteEvent event =>
        mret (NetworkID event, Key event, Value event, false)
    | UpdateEvent event =>
        call (Errorf "Unexpected update service table event = %#v");;
        mret ("", "", [], false)
    end;
  handleEpTableEvent_lookup nid eid value isAdd.
End Agent.

(** ** What an operation did *)

(** The actions [w'] has seen beyond those of [w]. *)
Definition new_actions (w w' : World) : list Action :=
  drop (length (trace w)) (trace w').

(** The store's entries, when there is a store. *)
Definition store_entries (w : World) : gmap (string * string * string) bytes :=
  match c_agent (ctrl w) with
  | Some ag => entries (networkDB ag)
  | None => ∅
  end.

Definition is_store_call (a : Action) : bool :=
  match a with
  | CallNew _ | CallJoin _ | CallJoinNetwork _ | CallLeaveNetwork _
  | CallCreateEntry _ _ _ _ | CallDeleteEntry _ _ _ | CallWatch _ _ _ _
  | CallWalkTable _ | CallCancel _ | CallClose => true
  | _ => false
  end.

Definition is_service_binding (a : Action) : bool :=
  match a with
  | CallAddServiceBinding _ _ _ _ _ _ _ | CallRmServiceBinding _ _ _ _ _ _ _ => true
  | _ => false
  end.

Definition is_name_record (a : Action) : bool :=
  match a with
  | CallAddSvcRecords _ _ _ | CallDeleteSvcRecords _ _ _ => true
  | _ => false
  end.

Definition is_CreateEntry (a : Action) : bool :=
  match a with
  | CallCreateEntry _ _ _ _ => true
  | _ => false
  end.

(** ** Vocabulary of the statements *)

(** The store key a driver-table entry of an endpoint of [n] lives under. *)
Definition entry_key (n : network) (te : tableEntry) : string * string * string :=
  (tableName te, ID n, key te).

Definition endpoint_key (ep : endpoint) : string * string * string :=
  ("endpoint_table", ID (getNetwork ep), ep_ID ep).

(** The record addToCluster serialises for an endpoint whose interface
    address is [address]. *)
Definition endpoint_record (X : Collaborators) (ep : endpoint)
    (address : IPNet) (ports : list PortConfig) : EndpointRecord :=
  {| Name := ep_Name ep;
     ServiceName := svcName ep;
     ServiceID := svcID ep;
     VirtualIP := IP_String X (virtualIP ep);
     IngressPorts := ports;
     EndpointIP := IP_String X (IPNet_IP address) |}.

Definition publish_then_retract (X : Collaborators) (ep : endpoint)
    : M (option error * option error) :=
  err1 ← addToCluster X ep;
  err2 ← deleteFromCluster X ep;
  mret (err1, err2).

(** The notifications a walk of table [tname] hands to the driver of
    [n], one per entry visited. *)
Definition notified (n : network) (tname : string)
    (es : gmap (string * string * string) bytes) : list Action :=
  map (λ e : string * string * bytes,
         CallEventNotify Create (ID n) tname e.1.2 e.2)
      (table_entries tname es).



(** The value an event carries. *)
Definition event_value (ev : Event) : bytes :=
  match ev with
  | CreateEvent event | DeleteEvent event | UpdateEvent event => Value event
  end.

(** A payload the handler refuses: it does not deserialise, or the
    record has no name or no parsable endpoint IP. *)
Definition malformed (X : Collaborators) (value : bytes) : bool :=
  match Unmarshal X value with
  | Err _ => true
  | Ok epRec =>
      bool_decide (Name epRec = "")
      || bool_decide (ParseIP X (EndpointIP epRec) = [])
  end.

Definition is_quiet (a : Action) : bool :=
  negb (is_service_binding a) && negb (is_name_record a).

(** The value the handler deserialises: the [Update] case assigns
    nothing, so there it is the nil slice. *)
Definition handler_value (ev : Event) : bytes :=
  match ev with
  | CreateEvent event | DeleteEvent event => Value event
  | UpdateEvent _ => []
  end.

Definition is_Watch (a : Action) : bool :=
  match a with
  | CallWatch _ _ _ _ | GoHandleTableEvents _ _ => true
  | _ => false
  end.

(** The configuration the store is started with. *)
Definition store_config (X : Collaborators) (bindAddr : string) : Config :=
  {| BindAddr := bindAddr; NodeName := Hostname X |}.

(** An address [getBindAddr] can bind to: an IP network address that is
    not link-local. *)
Definition usable (X : Collaborators) (a : Addr) : bool :=
  match a with
  | Addr_IPNet addr => negb (IsLinkLocalUnicast X (IPNet_IP addr))
  | Addr_other => false
  end.

(** A step of a run: [R] relates the state before to the state after,
    whether the run returned or panicked. *)
Definition preserves {A : Type} (R : relation World) (m : M A) : Prop :=
  ∀ w, R w (world_of (m w)).

(** The same for a run that moreover always returns. *)
Definition ensures {A : Type} (R : relation World) (m : M A) : Prop :=
  ∀ w, ∃ a w', m w = Done a w' ∧ R w w'.

(** The controller's configuration and networks are as before, and so
    is the agent's identity: set or unset as before, with the same bind
    address and the same endpoint-table cancel function. *)
Definition agent_kept (w w' : World) : Prop :=
  isAgent (ctrl w') = isAgent (ctrl w) ∧
  networks (ctrl w') = networks (ctrl w) ∧
  match c_agent (ctrl w) with
  | Some ag =>
      ∃ ag', c_agent (ctrl w') = Some ag' ∧
             bindAddr ag' = bindAddr ag ∧
             epTblCancel ag' = epTblCancel ag
  | None => c_agent (ctrl w') = None
  end.

(** The store entries under the keys outside [K] are as before. *)
Definition entries_kept_outside (K : string * string * string → Prop)
    (w w' : World) : Prop :=
  ∀ k, ¬ K k → store_entries w' !! k = store_entries w !! k.

(** The keys an endpoint publishes under. *)
Definition endpoint_keys (ep : endpoint) (k : string * string * string) : Prop :=
  k = endpoint_key ep ∨
  ∃ ji te, joinInfo ep = Some ji ∧ te ∈ driverTableEntries ji ∧
           k = entry_key (getNetwork ep) te.

(** The controller is untouched and every action made satisfies [P]. *)
Definition only_did (P : Action → bool) (w w' : World) : Prop :=
  ctrl w' = ctrl w ∧
  ∃ l, trace w' = trace w ++ l ∧ Forall (λ a, P a = true) l.

Definition is_local (a : Action) : bool := negb (is_store_call a).

(** The handles [agentClose] cancels before the endpoint-table one: those
    recorded for every network, network by network. *)
Definition recorded_handles (ag : agent) : list handle :=
  concat (map snd (map_to_list (driverCancelFuncs ag))).

(** The store calls made for one driver-table entry of an endpoint of
    [n], and the store after a run of them. *)
Definition create_call (n : network) (te : tableEntry) : Action :=
  CallCreateEntry (tableName te) (ID n) (key te) (value te).

Definition delete_call (n : network) (te : tableEntry) : Action :=
  CallDeleteEntry (tableName te) (ID n) (key te).

Definition created (n : network) (es : gmap (string * string * string) bytes)
    (tes : list tableEntry) : gmap (string * string * string) bytes :=
  foldl (λ m te, <[entry_key n te := value te]> m) es tes.

Definition deleted (n : network) (es : gmap (string * string * string) bytes)
    (tes : list tableEntry) : gmap (string * string * string) bytes :=
  foldl (λ m te, delete (entry_key n te) m) es tes.

(** The ports addToCluster gossips: none without a service id. *)
Definition gossiped_ports (ep : endpoint) : list PortConfig :=
  if decide (svcID ep ≠ "") then ingressPorts_in (getNetwork ep) ep else [].

(** The service-binding call addToCluster starts with, if any. *)
Definition binding_call (ep : endpoint) (address : IPNet) : list Action :=
  if decide (svcID ep ≠ "")
  then [CallAddServiceBinding (svcName ep) (svcID ep) (ID (getNetwork ep))
          (ep_ID ep) (virtualIP ep) (gossiped_ports ep) (IPNet_IP address)]
  else [].

(** The service-binding call deleteFromCluster starts with, if any. *)
Definition unbinding_call (ep : endpoint) : list Action :=
  match decide (svcID ep ≠ ""), Iface_Address ep with
  | left _, Some address =>
      [CallRmServiceBinding (svcName ep) (svcID ep) (ID (getNetwork ep))
         (ep_ID ep) (virtualIP ep) (ingressPorts_in (getNetwork ep) ep)
         (IPNet_IP address)]
  | _, _ => []
  end.

(** The handles of the watches registered by the calls [l]. *)
Definition watch_handles (l : list Action) : list handle :=
  omap (λ a, match a with
             | CallWatch _ _ _ h => Some h
             | _ => None
             end) l.

(** The cancel functions recorded for a network, and the subscription
    behind a handle if it is open. *)
Definition recorded (nid : string) (w : World) : list handle :=
  match c_agent (ctrl w) with
  | Some ag => default [] (driverCancelFuncs ag !! nid)
  | None => []
  end.

Definition open_watch (w : World) (h : handle)
    : option (string * string * string) :=
  match c_agent (ctrl w) with
  | Some ag => watches (networkDB ag) !! h
  | None => None
  end.

(** The notification the driver-table handler forwards for an event. *)
Definition driver_notification (n : network) (ev : Event) : Action :=
  match ev with
  | CreateEvent event =>
      CallEventNotify Create (ID n) (Table event) (Key event) (Value event)
  | DeleteEvent event | UpdateEvent event =>
      CallEventNotify Delete (ID n) (Table event) (Key event) (Value event)
  end.


(** ** Collaborators to run the code against

    A node on which every call succeeds.  Its codec is a stand-in for
    protobuf: a record travels as the bytes of its name, the empty
    buffer decodes to the zero record and a buffer that starts with
    [xff] does not decode. *)
Module Sample.
Definition ip_10_0_0_5 : IP := [x0a; x00; x00; x05].

Definition parse_ip (s : string) : IP :=
  if decide (s = "10.0.0.5") then ip_10_0_0_5 else [].

Definition ip_string (ip : IP) : string :=
  if decide (ip = ip_10_0_0_5) then "10.0.0.5" else "<nil>".

Definition marshal (r : EndpointRecord) : result bytes :=
  Ok (list_byte_of_string (Name r)).

Definition unmarshal (v : bytes) : result EndpointRecord :=
  match v with
  | xff :: _ => Err "proto: illegal wireType 7"
  | _ => Ok {| Name := string_of_list_byte v;
               ServiceName := "";
               ServiceID := "";
               VirtualIP := "";
               IngressPorts := [];
               EndpointIP := match v with [] => "" | _ => "10.0.0.5" end |}
  end.

Definition with_returns (f : World → Action → option error) : Collaborators :=
  {| ParseIP := parse_ip;
     IP_String := ip_string;
     IsLinkLocalUnicast := λ _, false;
     InterfaceByName := λ _, Err "no such network interface";
     Hostname := "node-a";
     Marshal := marshal;
     Unmarshal := unmarshal;
     returns := f |}.

(** Every call succeeds. *)
Definition node : Collaborators := with_returns (λ _ _, None).

Definition overlay : network :=
  {| ID := "n1"; networkType := "overlay"; driverScope := "global";
     ingress := false; driverTables := ["overlay_peer_table"] |}.

Definition bridge : network :=
  {| ID := "n0"; networkType := "bridge"; driverScope := "local";
     ingress := false; driverTables := [] |}.

Definition web_on (n : network) (ji : option endpointJoinInfo) : endpoint :=
  {| ep_ID := "e1"; ep_Name := "web"; isAnonymous := false;
     svcName := "websvc"; svcID := "s1"; virtualIP := [];
     ingressPorts := [{| PortConfig_Name := "http"; PortConfig_Protocol := TCP;
                         TargetPort := 80; PublishedPort := 8080 |}];
     Iface_Address := Some {| IPNet_IP := ip_10_0_0_5;
                              IPNet_Mask := [xff; xff; xff; x00] |};
     joinInfo := ji;
     getNetwork := n |}.

Definition peer_entry : tableEntry :=
  {| tableName := "overlay_peer_table"; key := "e1"; value := [x01; x02] |}.

(** A controller without an agent, and one whose agent has just been
    created with bind address 10.0.0.5. *)
Definition standalone : World :=
  {| ctrl := {| isAgent := false; c_agent := None;
                networks := {["n0" := bridge]} |};
     trace := [] |}.

Definition agent0 : agent :=
  {| networkDB := (NetworkDB_Watch "endpoint_table" "" "" NetworkDB_empty).2;
     bindAddr := "10.0.0.5"; epTblCancel := 0; driverCancelFuncs := ∅ |}.

Definition clustered : World :=
  {| ctrl := {| isAgent := true; c_agent := Some agent0;
                networks := {["n1" := overlay]} |};
     trace := [] |}.

(** The same controller once the store holds the entries [es]. *)
Definition clustered_with (es : gmap (string * string * string) bytes)
    : World :=
  {| ctrl := {| isAgent := true;
                c_agent := Some {| networkDB :=
                                     NetworkDB_set_entries es (networkDB agent0);
                                   bindAddr := "10.0.0.5";
                                   epTblCancel := 0;
                                   driverCancelFuncs := ∅ |};
                networks := {["n1" := overlay]} |};
     trace := [] |}.

Definition web_record : bytes := ["w"; "e"; "b"]%byte.

(** A host with one interface, "eth0", whose addresses are a hardware
    address, a link-local one and 10.0.0.5. *)
Definition ip_169_254_1_1 : IP := [xa9; xfe; x01; x01].

Definition host : Collaborators :=
  {| ParseIP := parse_ip;
     IP_String := ip_string;
     IsLinkLocalUnicast := λ ip, bool_decide (take 2 ip = [xa9; xfe]);
     InterfaceByName := λ name,
       if decide (name = "eth0")
       then Ok {| Addrs := Ok [Addr_other;
                               Addr_IPNet {| IPNet_IP := ip_169_254_1_1;
                                             IPNet_Mask := [xff; xff; x00; x00] |};
                               Addr_IPNet {| IPNet_IP := ip_10_0_0_5;
                                             IPNet_Mask := [xff; xff; xff; x00] |}] |}
       else Err "no such network interface";
     Hostname := "node-a";
     Marshal := marshal;
     Unmarshal := unmarshal;
     returns := λ _ _, None |}.

(** A store that refuses to create entries in the table [tname]. *)
Definition refuses_table (tname : string) : World → Action → option error :=
  λ _ a, match a with
         | CallCreateEntry t _ _ _ =>
             if decide (t = tname) then Some "entry exists" else None
         | _ => None
         end.

(** An anonymous endpoint with three driver-table entries, the second
    one in the table "overlay_fdb". *)
Definition three_entries : endpointJoinInfo :=
  {| driverTableEntries :=
       [peer_entry;
        {| tableName := "overlay_fdb"; key := "e1"; value := [x03] |};
        {| tableName := "overlay_peer_table"; key := "e2"; value := [x04] |}] |}.

Definition anonymous_on (n : network) (ji : option endpointJoinInfo) : endpoint :=
  {| ep_ID := "e1"; ep_Name := "anon"; isAnonymous := true;
     svcName := ""; svcID := ""; virtualIP := []; ingressPorts := [];
     Iface_Address := None; joinInfo := ji; getNetwork := n |}.

(** An endpoint without a service, and a peer whose deserialiser reads
    the records of such endpoints back. *)
Definition plain_on (n : network) (ji : option endpointJoinInfo) : endpoint :=
  {| ep_ID := "e2"; ep_Name := "db"; isAnonymous := false;
     svcName := ""; svcID := ""; virtualIP := []; ingressPorts := [];
     Iface_Address := Some {| IPNet_IP := ip_10_0_0_5;
                              IPNet_Mask := [xff; xff; xff; x00] |};
     joinInfo := ji; getNetwork := n |}.

Definition peer : Collaborators :=
  {| ParseIP := parse_ip;
     IP_String := ip_string;
     IsLinkLocalUnicast := λ _, false;
     InterfaceByName := λ _, Err "no such network interface";
     Hostname := "node-b";
     Marshal := marshal;
     Unmarshal := λ v, Ok {| Name := string_of_list_byte v;
                             ServiceName := "";
                             ServiceID := "";
                             VirtualIP := "<nil>";
                             IngressPorts := [];
                             EndpointIP := "10.0.0.5" |};
     returns := λ _ _, None |}.

(** A network with two driver tables, and a node on which the driver
    resolves until the first table has been walked. *)
Definition overlay_two_tables : network :=
  {| ID := "n1"; networkType := "overlay"; driverScope := "global";
     ingress := false; driverTables := ["overlay_peer_table"; "overlay_fdb"] |}.

Definition walked (l : list Action) : bool :=
  existsb (λ a, match a with CallWalkTable _ => true | _ => false end) l.

Definition driver_lost_after_walk : Collaborators :=
  with_returns
    (λ w a, match a with
            | CallDriver _ =>
                if walked (trace w) then Some "driver not found" else None
            | _ => None
            end).
End Sample.

(** ** Running the monad *)

(** The state after one more observed action, and after the store has
    been replaced. *)
Definition log (a : Action) (w : World) : World :=
  {| ctrl := ctrl w; trace := trace w ++ [a] |}.

Definition with_agent (ag : agent) (w : World) : World :=
  {| ctrl := {| isAgent := isAgent (ctrl w);
                c_agent := Some ag;
                networks := networks (ctrl w) |};
     trace := trace w |}.

Definition agent_with_db (db : NetworkDB) (ag : agent) : agent :=
  {| networkDB := db; bindAddr := bindAddr ag;
     epTblCancel := epTblCancel ag;
     driverCancelFuncs := driverCancelFuncs ag |}.

Definition agent_with_cancelFuncs (m : gmap string (list handle)) (ag : agent)
    : agent :=
  {| networkDB := networkDB ag; bindAddr := bindAddr ag;
     epTblCancel := epTblCancel ag;
     driverCancelFuncs := m |}.

Lemma run_bind {A B : Type} (m : M A) (f : A → M B) (w : World) :
  (m ≫= f) w = match m w with
               | Done a w' => f a w'
               | Panicked w' => Panicked w'
               end.
Proof. reflexivity. Qed.

Lemma run_ret {A : Type} (a : A) (w : World) : (mret a : M A) w = Done a w.
Proof. reflexivity. Qed.

Lemma run_call (a : Action) (w : World) : call a w = Done tt (log a w).
Proof. reflexivity. Qed.

Lemma run_panic {A : Type} (w : World) : (panic : M A) w = Panicked w.
Proof. reflexivity. Qed.

Lemma run_getController (w : World) : getController w = Done (ctrl w) w.
Proof. reflexivity. Qed.

Lemma run_fallible (X : Collaborators) (a : Action) (w : World) :
  fallible X a w = Done (returns X w a) (log a w).
Proof. reflexivity. Qed.

Lemma run_the_agent (w : World) (ag : agent) :
  c_agent (ctrl w) = Some ag → the_agent w = Done ag w.
Proof. unfold the_agent. by intros ->. Qed.

Lemma run_store_call (X : Collaborators) (a : Action)
    (f : NetworkDB → NetworkDB) (w : World) (ag : agent) :
  c_agent (ctrl w) = Some ag →
  store_call X a f w =
    match returns X w a with
    | Some err => Done (Some err) (log a w)
    | None => Done None (with_agent (agent_with_db (f (networkDB ag)) ag)
                                    (log a w))
    end.
Proof.
  intros Hag. unfold store_call, get.
  rewrite run_bind, (run_the_agent _ _ Hag). cbn beta iota.
  rewrite !run_bind, run_call. cbn beta iota.
  destruct (returns X w a); [reflexivity |].
  unfold set_networkDB. rewrite !run_bind.
  rewrite (run_the_agent (log a w) ag Hag). reflexivity.
Qed.

(** One step of symbolic execution: push the state through binds,
    returns and observed calls. *)
Ltac run :=
  repeat (rewrite ?run_bind, ?run_ret, ?run_call, ?run_getController,
                  ?run_fallible, ?run_panic;
          cbn beta iota delta [negb]).

(** Case analysis on the verdict of the collaborator called next. *)
Ltac case_returns :=
  match goal with
  | |- context [match returns ?X ?w ?a with _ => _ end] =>
      let e := fresh "e" in
      let H := fresh "Hret" in
      destruct (returns X w a) as [e |] eqn:H
  end.

(** A store call made while the agent is known to be there. *)
Ltac run_store Hag :=
  unfold Join, JoinNetwork, LeaveNetwork, CreateEntry, DeleteEntry;
  match goal with
  | |- context [store_call ?X ?a ?f ?w] =>
      rewrite (run_store_call X a f w _ Hag)
  end.

Lemma new_actions_same (w : World) : new_actions w w = [].
Proof. unfold new_actions. by rewrite drop_all. Qed.

(** Case analysis on membership in an explicit list. *)
Ltac elem_of_cases H :=
  repeat (apply elem_of_cons in H as [H | H]; [subst |]);
  try (by apply elem_of_nil in H).

(** Read the new actions off a state built by [log] and [with_agent]. *)
Ltac new_actions :=
  unfold new_actions;
  cbn [trace log with_agent world_of];
  rewrite <- ?app_assoc, ?drop_app_length, ?drop_all;
  cbn [app].

(** ** Cluster eligibility *)

Lemma isClusterEligible_true (c : controller) (n : network) :
  isClusterEligible c n = true ↔
  driverScope n = GlobalScope ∧ c_agent c ≠ None.
Proof.
  unfold isClusterEligible.
  destruct (decide (driverScope n ≠ GlobalScope)) as [Hne | Heq].
  - split; [discriminate | intros [Hg _]; contradiction].
  - apply dec_stable in Heq.
    destruct (c_agent c) as [ag |]; split; try done.
    + intros [_ Hnil]. contradiction.
Qed.

Lemma isClusterEligible_agent (c : controller) (n : network) :
  isClusterEligible c n = true → ∃ ag, c_agent c = Some ag.
Proof.
  intros H. apply isClusterEligible_true in H as [_ H].
  destruct (c_agent c) as [ag |]; [eauto | done].
Qed.

(** C1.  A network is cluster-eligible exactly when its driver scope is
    global and the controller has an agent; when it is not, joinCluster,
    leaveCluster, addToCluster, deleteFromCluster, addDriverWatches and
    cancelDriverWatches all return nil (or just return) and leave the
    controller, the store and the trace of calls exactly as they were. *)
Theorem isClusterEligible_gates_cluster_operations
    (X : Collaborators) (w : World) (n : network) (ep : endpoint) :
  (isClusterEligible (ctrl w) n = true ↔
     driverScope n = GlobalScope ∧ c_agent (ctrl w) ≠ None) ∧
  (isClusterEligible (ctrl w) n = false →
     joinCluster X n w = Done None w ∧
     leaveCluster X n w = Done None w ∧
     addDriverWatches X n w = Done tt w ∧
     cancelDriverWatches n w = Done tt w ∧
     (getNetwork ep = n →
        addToCluster X ep w = Done None w ∧
        deleteFromCluster X ep w = Done None w)).
Proof.
  split; [apply isClusterEligible_true |].
  intros Hno.
  unfold joinCluster, leaveCluster, addDriverWatches, cancelDriverWatches.
  run. rewrite Hno. cbn.
  repeat split; try reflexivity; subst n;
    unfold addToCluster, deleteFromCluster; run; by rewrite Hno.
Qed.

Lemma isClusterEligible_gates_cluster_operations_witness :
  isClusterEligible (ctrl Sample.clustered) Sample.bridge = false ∧
  addToCluster Sample.node (Sample.web_on Sample.bridge None) Sample.clustered
    = Done None Sample.clustered.
Proof.
  split; [reflexivity |].
  apply (isClusterEligible_gates_cluster_operations
           Sample.node Sample.clustered Sample.bridge
           (Sample.web_on Sample.bridge None));
    reflexivity.
Defined.

(** A global-scope network on a controller without an agent: nothing is
    published and nothing is watched. *)
Example no_agent_no_cluster_operation :
  isClusterEligible (ctrl Sample.standalone) Sample.overlay = false ∧
  joinCluster Sample.node Sample.overlay Sample.standalone
    = Done None Sample.standalone ∧
  addToCluster Sample.node (Sample.web_on Sample.overlay None) Sample.standalone
    = Done None Sample.standalone ∧
  addDriverWatches Sample.node Sample.overlay Sample.standalone
    = Done tt Sample.standalone.
Proof. by repeat split. Qed.

(** ** Retracting an endpoint that has no join information *)

(** C2, amended.  With nil join information deleteFromCluster deletes no
    driver-table entry and does not panic, and it is a no-op for an
    anonymous endpoint or an ineligible network.  For a non-anonymous
    endpoint of an eligible network it is not: it removes the service
    binding (service id set, address resolved) and returns the error if
    that fails; otherwise it calls DeleteEntry for the endpoint-table
    entry and returns what that call returns, the entry being gone from
    the store when it is nil.  These are the only calls it makes, and no
    other store entry changes. *)
Theorem deleteFromCluster_nil_joinInfo
    (X : Collaborators) (w : World) (ep : endpoint)
    (Hnil : joinInfo ep = None) :
  let n := getNetwork ep in
  let r := deleteFromCluster X ep w in
  let del := CallDeleteEntry "endpoint_table" (ID n) (ep_ID ep) in
  let w1 := foldl (λ w0 b, log b w0) w (unbinding_call ep) in
  panicked r = false ∧
  (isAnonymous ep = true ∨ isClusterEligible (ctrl w) n = false →
     r = Done None w) ∧
  (isAnonymous ep = false → isClusterEligible (ctrl w) n = true →
     (∀ b e, b ∈ unbinding_call ep → returns X w b = Some e →
        r = Done (Some e) (log b w)) ∧
     ((∀ b, b ∈ unbinding_call ep → returns X w b = None) →
        returned r = Some (returns X w1 del) ∧
        new_actions w (world_of r) = unbinding_call ep ++ [del] ∧
        store_entries (world_of r) =
          match returns X w1 del with
          | None => delete (endpoint_key ep) (store_entries w)
          | Some _ => store_entries w
          end)) ∧
  (∀ a, a ∈ new_actions w (world_of r) → a ∈ unbinding_call ep ∨ a = del) ∧
  (∀ k, k ≠ endpoint_key ep →
     store_entries (world_of r) !! k = store_entries w !! k).
Proof.
  intros n r del w1. subst n r w1.
  unfold deleteFromCluster, unbinding_call, endpoint_key. rewrite Hnil. run.
  destruct (isClusterEligible (ctrl w) (getNetwork ep)) eqn:Hel; cbn;
    [| rewrite new_actions_same; repeat split; try done;
       by intros a Ha%elem_of_nil].
  destruct (isClusterEligible_agent _ _ Hel) as [ag Hag].
  assert (Hes : store_entries w = entries (networkDB ag))
    by (unfold store_entries; by rewrite Hag).
  destruct (isAnonymous ep) eqn:Hanon; cbn;
    [run; cbn; rewrite new_actions_same; repeat split; try done;
     by intros a Ha%elem_of_nil |].
  (* the service binding is removed first, when there is one to remove;
     then the endpoint-table entry is deleted *)
  destruct (decide (svcID ep ≠ "")) as [Hsvc | Hsvc];
    [destruct (Iface_Address ep) as [address |] eqn:Haddr |].
  1: unfold rmServiceBinding; run;
     destruct (returns X w _) as [e |] eqn:Hrm; cbn beta iota.
  all: run; try (run_store Hag; fold del; destruct (returns X _ del) eqn:Hdel; run).
  all: cbn [panicked world_of returned foldl].
  all: split; [done |]; split; [by intros [? | ?] |]; split; [intros _ _; split |].
  (* a failing removal is returned as it is *)
  all: try (intros b e0 Hb Hb'; elem_of_cases Hb; congruence).
  (* after the removal, the endpoint-table entry *)
  all: try (intros Hok;
            first
              [ rewrite Hok in Hrm by (apply elem_of_cons; by left);
                discriminate
              | split; [done |]; split; [by new_actions |];
                unfold store_entries; cbn; by rewrite Hag ]).
  all: split.
  all: try (new_actions; intros a Ha; elem_of_cases Ha;
            (left; apply elem_of_cons; by left) || (by right)).
  all: intros k Hk; unfold store_entries; cbn; rewrite Hag; cbn;
    by rewrite ?lookup_delete_ne.
Qed.

Lemma deleteFromCluster_nil_joinInfo_witness :
  joinInfo (Sample.web_on Sample.overlay None) = None ∧
  new_actions Sample.clustered
    (world_of (deleteFromCluster Sample.node (Sample.web_on Sample.overlay None)
                 Sample.clustered)) =
  [CallRmServiceBinding "websvc" "s1" "n1" "e1" [] [] Sample.ip_10_0_0_5;
   CallDeleteEntry "endpoint_table" "n1" "e1"].
Proof.
  split; [reflexivity |].
  apply (deleteFromCluster_nil_joinInfo
           Sample.node Sample.clustered (Sample.web_on Sample.overlay None)
           eq_refl);
    reflexivity.
Defined.

(** C2 as stated fails: a non-anonymous endpoint of an eligible network,
    with nil join information, has its service binding removed and its
    endpoint-table entry deleted. *)
Lemma deleteFromCluster_nil_joinInfo_not_noop :
  let ep := Sample.web_on Sample.overlay None in
  let w := Sample.clustered_with
             {[("endpoint_table", "n1", "e1") := Sample.web_record]} in
  let w' := world_of (deleteFromCluster Sample.node ep w) in
  joinInfo ep = None ∧
  isClusterEligible (ctrl w) (getNetwork ep) = true ∧
  isAnonymous ep = false ∧
  new_actions w w' =
    [CallRmServiceBinding "websvc" "s1" "n1" "e1" [] [] Sample.ip_10_0_0_5;
     CallDeleteEntry "endpoint_table" "n1" "e1"] ∧
  store_entries w !! ("endpoint_table", "n1", "e1") = Some Sample.web_record ∧
  store_entries w' !! ("endpoint_table", "n1", "e1") = None.
Proof. vm_compute. repeat split. Qed.

(** ** Publishing an endpoint *)

(** The loop over the driver-table entries keeps the agent, only adds
    CreateEntry calls to the trace and touches no key but its own. *)
Lemma range_CreateEntry_spec (X : Collaborators) (n : network)
    (tes : list tableEntry) (w : World) (ag : agent) :
  c_agent (ctrl w) = Some ag →
  ∃ r w' ag' l,
    range_CreateEntry X n tes w = Done r w' ∧
    c_agent (ctrl w') = Some ag' ∧
    trace w' = trace w ++ l ∧
    Forall (λ a, is_CreateEntry a = true) l ∧
    ∀ k, k ∉ map (entry_key n) tes →
         entries (networkDB ag') !! k = entries (networkDB ag) !! k.
Proof.
  revert w ag. induction tes as [| te tes IH]; intros w ag Hag.
  - exists None, w, ag, []. cbn. rewrite app_nil_r. by repeat split.
  - cbn [range_CreateEntry]. run. run_store Hag.
    case_returns; run.
    + eexists (Some e), _, ag, [_]. by repeat split; [| repeat constructor].
    + match goal with
      | |- context [range_CreateEntry X n tes ?W] =>
          destruct (IH W _ eq_refl) as (r & w' & ag' & l & -> & Hag' & Htr & Hl & Hk)
      end.
      exists r, w', ag', (CallCreateEntry (tableName te) (ID n) (key te)
                                          (value te) :: l).
      repeat split; [done | | by constructor |].
      * rewrite Htr. cbn. by rewrite <- app_assoc.
      * intros k Hnot. rewrite Hk by (intros Hin; apply Hnot; by right).
        cbn. apply lookup_insert_ne. intros <-. apply Hnot. cbn. left.
Qed.

(** With nil join information deleteFromCluster runs no loop, and what
    it does before cannot panic on an eligible network. *)
Lemma deleteFromCluster_nil_joinInfo_returns
    (X : Collaborators) (w : World) (ep : endpoint) :
  joinInfo ep = None → panicked (deleteFromCluster X ep w) = false.
Proof.
  intros Hnil. unfold deleteFromCluster. rewrite Hnil. run.
  destruct (isClusterEligible (ctrl w) (getNetwork ep)) eqn:Hel; run; [| done].
  destruct (isClusterEligible_agent _ _ Hel) as [ag Hag].
  destruct (isAnonymous ep); run; [done |].
  destruct (decide (svcID ep ≠ ""));
    [destruct (Iface_Address ep) as [address |] |].
  1: unfold rmServiceBinding; run; case_returns; run; [done |].
  all: run; run_store Hag; by case_returns.
Qed.

(** C10.  With nil join information and an eligible network, addToCluster
    never returns nil: unless an earlier call made it return an error,
    it reaches the loop over [ep.joinInfo.driverTableEntries] and panics
    on the nil dereference.  That happens for every anonymous or
    address-less endpoint and whenever the collaborators all succeed;
    deleteFromCluster, which tests for nil first, never panics. *)
Theorem addToCluster_nil_joinInfo_panics
    (X : Collaborators) (w : World) (ep : endpoint)
    (Hel : isClusterEligible (ctrl w) (getNetwork ep) = true)
    (Hnil : joinInfo ep = None) :
  let r := addToCluster X ep w in
  (panicked r = true ∨ ∃ e, returned r = Some (Some e)) ∧
  (isAnonymous ep = true ∨ Iface_Address ep = None → panicked r = true) ∧
  ((∀ w' a, returns X w' a = None) → (∀ rec, ∃ buf, Marshal X rec = Ok buf) →
     panicked r = true) ∧
  panicked (deleteFromCluster X ep w) = false.
Proof.
  intros r. subst r.
  split; [| split; [| split]];
    [..| by apply deleteFromCluster_nil_joinInfo_returns].
  all: destruct (isClusterEligible_agent _ _ Hel) as [ag Hag].
  all: unfold addToCluster; run; rewrite Hel, Hnil; run.
  all: destruct (isAnonymous ep) eqn:Hanon;
    [intros; by (left + idtac) |].
  all: destruct (Iface_Address ep) as [address |] eqn:Haddr;
    [| intros; by (left + idtac)].
  2: by intros [? | ?].
  all: destruct (decide (svcID ep ≠ "")) as [Hsvc | Hsvc];
    unfold addServiceBinding; run.
  - case_returns; run; [right; by exists e |].
    destruct (Marshal X _) as [buf | e']; run; [| right; by exists e'].
    run_store Hag.
    case_returns; run; [right; by exists e | by left].
  - destruct (Marshal X _) as [buf | e']; run; [| right; by exists e'].
    run_store Hag.
    case_returns; run; [right; by exists e | by left].
  - intros Hok Hmar. rewrite Hok. run.
    destruct (Hmar {| Name := ep_Name ep; ServiceName := svcName ep;
                      ServiceID := svcID ep;
                      VirtualIP := IP_String X (virtualIP ep);
                      IngressPorts := ingressPorts_in (getNetwork ep) ep;
                      EndpointIP := IP_String X (IPNet_IP address) |})
      as [buf ->].
    run. run_store Hag. rewrite Hok. by run.
  - intros Hok Hmar.
    destruct (Hmar {| Name := ep_Name ep; ServiceName := svcName ep;
                      ServiceID := svcID ep;
                      VirtualIP := IP_String X (virtualIP ep);
                      IngressPorts := [];
                      EndpointIP := IP_String X (IPNet_IP address) |})
      as [buf ->].
    run. run_store Hag. rewrite Hok. by run.
Qed.

Lemma addToCluster_nil_joinInfo_panics_witness :
  isClusterEligible (ctrl Sample.clustered) Sample.overlay = true ∧
  panicked (addToCluster Sample.node (Sample.web_on Sample.overlay None)
              Sample.clustered) = true.
Proof.
  split; [reflexivity |].
  apply (addToCluster_nil_joinInfo_panics
           Sample.node Sample.clustered (Sample.web_on Sample.overlay None));
    [reflexivity | reflexivity | reflexivity | intros; by eexists].
Defined.

(** C6.  For a non-anonymous endpoint of an eligible network, with a
    resolved address and a service id, the first thing addToCluster does
    is to call addServiceBinding; when that fails the error is returned
    and nothing else has happened (no CreateEntry, store untouched);
    when it succeeds the record is serialised and created under
    "endpoint_table" before the driver-table entries.  The ports given
    to the binding and put in the record are the same list, and it is
    empty unless the network is the ingress network. *)
Theorem addToCluster_binds_service_first
    (X : Collaborators) (w : World) (ep : endpoint) (address : IPNet)
    (Hel : isClusterEligible (ctrl w) (getNetwork ep) = true)
    (Hanon : isAnonymous ep = false)
    (Haddr : Iface_Address ep = Some address)
    (Hsvc : svcID ep ≠ "") :
  let n := getNetwork ep in
  let ports := ingressPorts_in n ep in
  let binding :=
    CallAddServiceBinding (svcName ep) (svcID ep) (ID n) (ep_ID ep)
                          (virtualIP ep) ports (IPNet_IP address) in
  let rec := endpoint_record X ep address ports in
  let r := addToCluster X ep w in
  (ports ≠ [] → ingress n = true) ∧
  (∃ rest, new_actions w (world_of r) = binding :: rest) ∧
  match returns X w binding with
  | Some e => r = Done (Some e) (log binding w)
  | None =>
      match Marshal X rec with
      | Err e => r = Done (Some e) (log (CallMarshal rec) (log binding w))
      | Ok buf =>
          ∃ rest,
            new_actions w (world_of r) =
              binding :: CallMarshal rec
                :: CallCreateEntry "endpoint_table" (ID n) (ep_ID ep) buf
                :: rest ∧
            Forall (λ a, is_CreateEntry a = true) rest
      end
  end.
Proof.
  intros n ports binding rec r.
  destruct (isClusterEligible_agent _ _ Hel) as [ag Hag].
  split; [| cut (match returns X w binding with
                 | Some e => r = Done (Some e) (log binding w)
                 | None =>
                     match Marshal X rec with
                     | Err e =>
                         r = Done (Some e) (log (CallMarshal rec) (log binding w))
                     | Ok buf =>
                         ∃ rest,
                           new_actions w (world_of r) =
                             binding :: CallMarshal rec
                               :: CallCreateEntry "endpoint_table" (ID n)
                                    (ep_ID ep) buf
                               :: rest ∧
                           Forall (λ a, is_CreateEntry a = true) rest
                     end
                 end)].
  - subst ports. unfold ingressPorts_in. by destruct (ingress n).
  - intros Hcases. split; [| exact Hcases].
    destruct (returns X w binding); [| destruct (Marshal X rec)].
    + rewrite Hcases. exists []. by new_actions.
    + destruct Hcases as (rest & -> & _). eauto.
    + rewrite Hcases. eexists. by new_actions.
  - subst r. unfold addToCluster. run. rewrite Hel, Hanon, Haddr. run.
    destruct (decide (svcID ep ≠ "")) as [_ | ?]; [| done].
    unfold addServiceBinding. run.
    fold n. fold ports. fold binding. fold (endpoint_record X ep address ports).
    fold rec.
    destruct (returns X w binding) as [e |]; run; [done |].
    destruct (Marshal X rec) as [buf | e]; run; [| done].
    run_store Hag. case_returns; run.
    { exists []. split; [by new_actions | constructor]. }
    destruct (joinInfo ep) as [ji |];
      [| run; exists []; split; [by new_actions | constructor]].
    match goal with
    | |- context [range_CreateEntry X n ?tes ?W] =>
        destruct (range_CreateEntry_spec X n tes W _ eq_refl)
          as (r' & w' & ag' & l & -> & _ & Htr & Hl & _)
    end.
    exists l. split; [| done].
    unfold new_actions. cbn [world_of]. rewrite Htr. cbn [trace log with_agent].
    by rewrite <- !app_assoc, drop_app_length.
Qed.

Lemma addToCluster_binds_service_first_witness :
  let ep := Sample.web_on Sample.overlay
              (Some {| driverTableEntries := [Sample.peer_entry] |}) in
  isClusterEligible (ctrl Sample.clustered) (getNetwork ep) = true ∧
  ∃ rest,
    new_actions Sample.clustered
      (world_of (addToCluster Sample.node ep Sample.clustered)) =
    CallAddServiceBinding "websvc" "s1" "n1" "e1" [] [] Sample.ip_10_0_0_5
      :: rest.
Proof.
  split; [reflexivity |].
  apply (addToCluster_binds_service_first
           Sample.node Sample.clustered
           (Sample.web_on Sample.overlay
              (Some {| driverTableEntries := [Sample.peer_entry] |}))
           {| IPNet_IP := Sample.ip_10_0_0_5;
              IPNet_Mask := [xff; xff; xff; x00] |});
    [reflexivity | reflexivity | reflexivity | discriminate].
Defined.

(** ** Publish, then retract *)

(** The deleting loop keeps the agent and adds nothing to the store;
    when it returns nil every key of its entries is gone. *)
Lemma range_DeleteEntry_spec (X : Collaborators) (n : network)
    (tes : list tableEntry) (w : World) (ag : agent) :
  c_agent (ctrl w) = Some ag →
  ∃ r w' ag',
    range_DeleteEntry X n tes w = Done r w' ∧
    c_agent (ctrl w') = Some ag' ∧
    (∀ k, entries (networkDB ag) !! k = None →
          entries (networkDB ag') !! k = None) ∧
    (r = None → ∀ te, te ∈ tes →
       entries (networkDB ag') !! entry_key n te = None).
Proof.
  revert w ag. induction tes as [| te tes IH]; intros w ag Hag.
  - exists None, w, ag. cbn. repeat split; try done.
    intros _ te Hte. by apply elem_of_nil in Hte.
  - cbn [range_DeleteEntry]. run. run_store Hag. case_returns; run.
    + eexists (Some e), _, ag. by repeat split.
    + match goal with
      | |- context [range_DeleteEntry X n tes ?W] =>
          destruct (IH W _ eq_refl) as (r & w' & ag' & -> & Hag' & Hgone & Hall)
      end.
      exists r, w', ag'. repeat split; [done | |].
      * intros k Hk. apply Hgone. cbn.
        rewrite lookup_delete_None. by right.
      * intros -> te' Hte'. apply elem_of_cons in Hte' as [-> | Hte'].
        -- apply Hgone. cbn. apply lookup_delete_eq.
        -- by apply Hall.
Qed.

(** Publishing keeps the agent; for an anonymous endpoint it touches no
    key but those of the driver-table entries. *)
Lemma addToCluster_keeps_agent (X : Collaborators) (ep : endpoint)
    (ji : endpointJoinInfo) (w : World) (ag : agent) :
  c_agent (ctrl w) = Some ag →
  joinInfo ep = Some ji →
  ∃ r w' ag',
    addToCluster X ep w = Done r w' ∧
    c_agent (ctrl w') = Some ag' ∧
    (isAnonymous ep = true →
     ∀ k, k ∉ map (entry_key (getNetwork ep)) (driverTableEntries ji) →
          entries (networkDB ag') !! k = entries (networkDB ag) !! k).
Proof.
  intros Hag Hji. unfold addToCluster. run. rewrite Hji.
  destruct (isClusterEligible (ctrl w) (getNetwork ep)); run;
    [| by exists None, w, ag].
  assert (Hloop : ∀ w1 ag1, c_agent (ctrl w1) = Some ag1 →
            ∃ r w' ag',
              range_CreateEntry X (getNetwork ep) (driverTableEntries ji) w1
                = Done r w' ∧
              c_agent (ctrl w') = Some ag' ∧
              ∀ k, k ∉ map (entry_key (getNetwork ep)) (driverTableEntries ji) →
                   entries (networkDB ag') !! k = entries (networkDB ag1) !! k).
  { intros w1 ag1 Hag1.
    destruct (range_CreateEntry_spec X (getNetwork ep) (driverTableEntries ji)
                w1 ag1 Hag1) as (r & w' & ag' & l & ? & ? & _ & _ & ?).
    by exists r, w', ag'. }
  destruct (isAnonymous ep) eqn:Hanon.
  { destruct (Hloop w ag Hag) as (r & w' & ag' & ? & ? & ?).
    by exists r, w', ag'. }
  destruct (Iface_Address ep) as [address |].
  2: { destruct (Hloop w ag Hag) as (r & w' & ag' & ? & ? & ?).
       by exists r, w', ag'. }
  destruct (decide (svcID ep ≠ "")); unfold addServiceBinding; run.
  1: case_returns; run; [by eexists _, _, ag |].
  all: destruct (Marshal X _) as [buf | e']; run; [| by eexists _, _, ag].
  all: run_store Hag; case_returns; run; [by eexists _, _, ag |].
  all: match goal with
       | |- context [range_CreateEntry _ _ _ ?W] =>
           destruct (Hloop W _ eq_refl) as (r & w' & ag' & -> & ? & _)
       end.
  all: by exists r, w', ag'.
Qed.

(** Retracting an endpoint of an eligible network: when it returns
    nil, the driver-table entries are gone and so is, for a
    non-anonymous endpoint, the endpoint-table entry. *)
Lemma deleteFromCluster_retracts (X : Collaborators) (ep : endpoint)
    (ji : endpointJoinInfo) (w : World) (ag : agent) :
  c_agent (ctrl w) = Some ag →
  isClusterEligible (ctrl w) (getNetwork ep) = true →
  joinInfo ep = Some ji →
  ∃ r w' ag',
    deleteFromCluster X ep w = Done r w' ∧
    c_agent (ctrl w') = Some ag' ∧
    (∀ k, entries (networkDB ag) !! k = None →
          entries (networkDB ag') !! k = None) ∧
    (r = None →
       (∀ te, te ∈ driverTableEntries ji →
          entries (networkDB ag') !! entry_key (getNetwork ep) te = None) ∧
       (isAnonymous ep = false →
          entries (networkDB ag') !! endpoint_key ep = None)).
Proof.
  intros Hag Hel Hji. unfold deleteFromCluster. run. rewrite Hel, Hji. run.
  destruct (isAnonymous ep) eqn:Hanon; run.
  { destruct (range_DeleteEntry_spec X (getNetwork ep) (driverTableEntries ji)
                w ag Hag) as (r & w' & ag' & -> & Hag' & Hgone & Hall).
    exists r, w', ag'. repeat split; try done. by apply Hall. }
  assert (Hdel : ∀ w1, c_agent (ctrl w1) = Some ag →
            ∃ r w' ag',
              (check DeleteEntry X "endpoint_table" (ID (getNetwork ep))
                       (ep_ID ep);
               range_DeleteEntry X (getNetwork ep) (driverTableEntries ji)) w1
                = Done r w' ∧
              c_agent (ctrl w') = Some ag' ∧
              (∀ k, entries (networkDB ag) !! k = None →
                    entries (networkDB ag') !! k = None) ∧
              (r = None →
                 (∀ te, te ∈ driverTableEntries ji →
                    entries (networkDB ag') !! entry_key (getNetwork ep) te
                      = None) ∧
                 (false = false →
                    entries (networkDB ag') !! endpoint_key ep = None))).
  { intros w1 Hag1. run. run_store Hag1. case_returns; run.
    { by eexists _, _, ag. }
    match goal with
    | |- context [range_DeleteEntry X _ _ ?W] =>
        destruct (range_DeleteEntry_spec X (getNetwork ep)
                    (driverTableEntries ji) W _ eq_refl)
          as (r & w' & ag' & -> & ? & Hgone & Hall)
    end.
    exists r, w', ag'. repeat split; [done | | by apply Hall |].
    - intros k Hk. apply Hgone. cbn. rewrite lookup_delete_None. by right.
    - intros _. apply Hgone. cbn. apply lookup_delete_eq. }
  destruct (decide (svcID ep ≠ ""));
    [destruct (Iface_Address ep) as [address |] |]; run.
  2, 3: by apply Hdel.
  unfold rmServiceBinding. run. case_returns; run.
  - by eexists _, _, ag.
  - by apply Hdel.
Qed.

(** When every store call succeeds, the deleting loop returns nil. *)
Lemma range_DeleteEntry_succeeds (X : Collaborators) (n : network)
    (tes : list tableEntry) (w : World) (ag : agent) :
  (∀ w0 a, is_store_call a = true → returns X w0 a = None) →
  c_agent (ctrl w) = Some ag →
  returned (range_DeleteEntry X n tes w) = Some None.
Proof.
  intros Hstore. revert w ag.
  induction tes as [| te tes IH]; intros w ag Hag; [done |].
  cbn [range_DeleteEntry]. run. run_store Hag.
  rewrite Hstore by done. run. by eapply IH.
Qed.

(** When every store call and the removal of the service binding
    succeed, retracting an endpoint that has join information returns
    nil. *)
Lemma deleteFromCluster_succeeds (X : Collaborators) (ep : endpoint)
    (ji : endpointJoinInfo) (w : World) (ag : agent) :
  (∀ w0 a, is_store_call a = true → returns X w0 a = None) →
  (∀ w0 a, a ∈ unbinding_call ep → returns X w0 a = None) →
  c_agent (ctrl w) = Some ag →
  joinInfo ep = Some ji →
  returned (deleteFromCluster X ep w) = Some None.
Proof.
  intros Hstore Hunbind Hag Hji. revert Hunbind.
  unfold deleteFromCluster, unbinding_call. run. rewrite Hji.
  destruct (isClusterEligible (ctrl w) (getNetwork ep)); run; [| done].
  destruct (isAnonymous ep); run;
    [intros _; by eapply range_DeleteEntry_succeeds |].
  destruct (decide (svcID ep ≠ ""));
    [destruct (Iface_Address ep) as [address |] |]; intros Hunbind.
  1: unfold rmServiceBinding; run;
     rewrite Hunbind by (apply elem_of_cons; by left); run.
  all: run; run_store Hag || (erewrite run_store_call by exact Hag).
  all: rewrite Hstore by done; run.
  all: by eapply range_DeleteEntry_succeeds.
Qed.

(** Whenever the retraction that follows a publication returns nil, the
    endpoint's entries are gone. *)
Lemma publish_then_retract_nil (X : Collaborators) (w : World)
    (ep : endpoint) (ji : endpointJoinInfo) :
  isClusterEligible (ctrl w) (getNetwork ep) = true →
  joinInfo ep = Some ji →
  ∃ err1 err2 w',
    publish_then_retract X ep w = Done (err1, err2) w' ∧
    ((∀ w0 a, is_store_call a = true → returns X w0 a = None) →
     (∀ w0 a, a ∈ unbinding_call ep → returns X w0 a = None) →
     err2 = None) ∧
    (err2 = None →
     (∀ te, te ∈ driverTableEntries ji →
        store_entries w' !! entry_key (getNetwork ep) te = None) ∧
     (isAnonymous ep = false ∨ store_entries w !! endpoint_key ep = None →
        store_entries w' !! endpoint_key ep = None)).
Proof.
  intros Hel Hji.
  destruct (isClusterEligible_agent _ _ Hel) as [ag Hag].
  destruct (addToCluster_keeps_agent X ep ji w ag Hag Hji)
    as (r1 & w1 & ag1 & Hadd & Hag1 & Hframe).
  assert (Hel1 : isClusterEligible (ctrl w1) (getNetwork ep) = true).
  { apply isClusterEligible_true. apply isClusterEligible_true in Hel as [? _].
    split; [done | by rewrite Hag1]. }
  destruct (deleteFromCluster_retracts X ep ji w1 ag1 Hag1 Hel1 Hji)
    as (r2 & w2 & ag2 & Hdel & Hag2 & Hgone & Hnil).
  exists r1, r2, w2.
  split; [unfold publish_then_retract; run; rewrite Hadd; run;
          by rewrite Hdel |].
  split.
  - intros Hstore Hunbind.
    pose proof (deleteFromCluster_succeeds X ep ji w1 ag1 Hstore Hunbind
                  Hag1 Hji) as Hok.
    rewrite Hdel in Hok. by injection Hok.
  - intros ->. destruct (Hnil eq_refl) as [Htes Hep].
    unfold store_entries. rewrite Hag2, Hag.
    split; [done |].
    intros [Hanon | Habsent]; [by apply Hep |].
    destruct (isAnonymous ep) eqn:Hanon; [| by apply Hep].
    destruct (decide (endpoint_key ep ∈
                      map (entry_key (getNetwork ep)) (driverTableEntries ji)))
      as [Hin | Hout].
    + apply list_elem_of_fmap in Hin as (te & -> & Hte). by apply Htes.
    + apply Hgone. by rewrite Hframe.
Qed.

(** C5, amended.  For a cluster-eligible endpoint with join information,
    addToCluster followed by deleteFromCluster, with every store
    operation succeeding and the removal of the endpoint's service
    binding succeeding, returns with deleteFromCluster returning nil,
    and the store then holds no entry under any of the endpoint's
    driver-table keys, nor the endpoint's "endpoint_table" entry if the
    endpoint is non-anonymous or had none to begin with. *)
Theorem publish_then_retract_leaves_no_entry
    (X : Collaborators) (w : World) (ep : endpoint) (ji : endpointJoinInfo)
    (Hel : isClusterEligible (ctrl w) (getNetwork ep) = true)
    (Hji : joinInfo ep = Some ji)
    (Hstore : ∀ w0 a, is_store_call a = true → returns X w0 a = None)
    (Hunbind : ∀ w0 a, a ∈ unbinding_call ep → returns X w0 a = None) :
  ∃ err1 w',
    publish_then_retract X ep w = Done (err1, None) w' ∧
    (∀ te, te ∈ driverTableEntries ji →
       store_entries w' !! entry_key (getNetwork ep) te = None) ∧
    (isAnonymous ep = false ∨ store_entries w !! endpoint_key ep = None →
       store_entries w' !! endpoint_key ep = None).
Proof.
  destruct (publish_then_retract_nil X w ep ji Hel Hji)
    as (err1 & err2 & w' & Hrun & Hok & Hgone).
  rewrite (Hok Hstore Hunbind) in Hrun.
  exists err1, w'. split; [exact Hrun |].
  apply Hgone. by apply Hok.
Qed.

Lemma publish_then_retract_leaves_no_entry_witness :
  isClusterEligible (ctrl Sample.clustered) Sample.overlay = true ∧
  ∃ err1 w',
    publish_then_retract Sample.node
      (Sample.web_on Sample.overlay
         (Some {| driverTableEntries := [Sample.peer_entry] |}))
      Sample.clustered = Done (err1, None) w' ∧
    store_entries w' !!
      endpoint_key (Sample.web_on Sample.overlay
                      (Some {| driverTableEntries := [Sample.peer_entry] |}))
      = None.
Proof.
  split; [reflexivity |].
  destruct (publish_then_retract_leaves_no_entry
              Sample.node Sample.clustered
              (Sample.web_on Sample.overlay
                 (Some {| driverTableEntries := [Sample.peer_entry] |}))
              {| driverTableEntries := [Sample.peer_entry] |}
              eq_refl eq_refl (λ _ _ _, eq_refl) (λ _ _ _, eq_refl))
    as (err1 & w' & Hrun & _ & Hep).
  exists err1, w'. split; [exact Hrun |].
  apply Hep. left. reflexivity.
Defined.

(** C5 as stated fails: every store call succeeds, but the removal of
    the service binding fails, deleteFromCluster returns that error and
    both the endpoint-table entry and the driver-table entry stay. *)
Lemma publish_then_retract_keeps_entries_on_binding_error :
  let X := Sample.with_returns
             (λ _ a, match a with
                     | CallRmServiceBinding _ _ _ _ _ _ _ =>
                         Some "service binding not found"
                     | _ => None
                     end) in
  let ep := Sample.web_on Sample.overlay
              (Some {| driverTableEntries := [Sample.peer_entry] |}) in
  let w := Sample.clustered in
  let r := publish_then_retract X ep w in
  (∀ w' a, is_store_call a = true → returns X w' a = None) ∧
  isClusterEligible (ctrl w) (getNetwork ep) = true ∧
  joinInfo ep = Some {| driverTableEntries := [Sample.peer_entry] |} ∧
  returned r = Some (None, Some "service binding not found") ∧
  store_entries (world_of r) !! endpoint_key ep = Some Sample.web_record ∧
  store_entries (world_of r) !! entry_key Sample.overlay Sample.peer_entry
    = Some [x01; x02].
Proof.
  split; [by intros w' [] | vm_compute; by repeat split].
Qed.

(** The proviso on the endpoint-table entry is needed: neither
    operation touches the "endpoint_table" key of an anonymous endpoint,
    so an entry the store held under it before is still there. *)
Example publish_then_retract_keeps_entry_of_anonymous :
  let ep := Sample.anonymous_on Sample.overlay
              (Some {| driverTableEntries := [Sample.peer_entry] |}) in
  let w := Sample.clustered_with
             {[("endpoint_table", "n1", "e1") := Sample.web_record]} in
  let r := publish_then_retract Sample.node ep w in
  returned r = Some (None, None) ∧
  store_entries (world_of r) !! endpoint_key ep = Some Sample.web_record ∧
  store_entries (world_of r) !! entry_key Sample.overlay Sample.peer_entry
    = None.
Proof. vm_compute. by repeat split. Qed.

(** ** Driver watches and the replay of a table *)




Lemma run_notify_Create (n : network) (tname nid k : string) (v : bytes)
    (w : World) :
  notify_Create n tname nid k v w =
    Done false (log (CallEventNotify Create (ID n) tname k v) w).
Proof. reflexivity. Qed.

(** The walk started by addDriverWatches visits every entry and only
    notifies the driver. *)
Lemma walk_notify_Create (n : network) (tname : string)
    (l : list (string * string * bytes)) (w : World) :
  walk (notify_Create n tname) l w =
    Done tt {| ctrl := ctrl w;
               trace := trace w ++
                 map (λ e : string * string * bytes,
                        CallEventNotify Create (ID n) tname e.1.2 e.2) l |}.
Proof.
  revert w. induction l as [| [[nid k] v] l IH]; intros w; cbn [walk map].
  - rewrite app_nil_r. by destruct w.
  - run. rewrite run_notify_Create. run. rewrite IH. cbn.
    by rewrite <- app_assoc.
Qed.

Lemma run_Watch (tname nid k : string) (w : World) (ag : agent) :
  c_agent (ctrl w) = Some ag →
  Watch tname nid k w =
    Done (nextWatch (networkDB ag))
         (with_agent
            (agent_with_db (NetworkDB_Watch tname nid k (networkDB ag)).2 ag)
            (log (CallWatch tname nid k (nextWatch (networkDB ag))) w)).
Proof.
  intros Hag. unfold Watch. rewrite run_bind, (run_the_agent w ag Hag).
  cbn. run. unfold set_networkDB. rewrite run_bind.
  by rewrite (run_the_agent (log _ w) ag Hag).
Qed.

Lemma run_set_driverCancelFuncs (m : gmap string (list handle)) (w : World)
    (ag : agent) :
  c_agent (ctrl w) = Some ag →
  set_driverCancelFuncs m w = Done tt (with_agent (agent_with_cancelFuncs m ag) w).
Proof.
  intros Hag. unfold set_driverCancelFuncs.
  by rewrite run_bind, (run_the_agent w ag Hag).
Qed.

Lemma run_WalkTable_notify (n : network) (tname : string) (w : World)
    (ag : agent) :
  c_agent (ctrl w) = Some ag →
  WalkTable tname (notify_Create n tname) w =
    Done tt {| ctrl := ctrl w;
               trace := trace w ++ CallWalkTable tname
                          :: notified n tname (entries (networkDB ag)) |}.
Proof.
  intros Hag. unfold WalkTable. rewrite run_bind, (run_the_agent w ag Hag).
  cbn beta iota. run. rewrite walk_notify_Create. cbn.
  by rewrite <- app_assoc.
Qed.







(** The driver can also be lost at a later table: here it resolves for
    the first of two tables, which is watched and walked, and not for
    the second, which is watched and not walked. *)
Example addDriverWatches_stops_at_second_table :
  let w := Sample.clustered_with
             {[("overlay_peer_table", "n1", "e1") := [x01; x02]]} in
  let w' := world_of (addDriverWatches Sample.driver_lost_after_walk
                        Sample.overlay_two_tables w) in
  new_actions w w' =
    [CallWatch "overlay_peer_table" "n1" "" 1;
     Lock; LoadCancelFuncs "n1"; StoreCancelFuncs "n1"; Unlock;
     GoHandleTableEvents 1 (handleDriverTableEvent_fn "n1");
     CallDriver "n1";
     CallWalkTable "overlay_peer_table";
     CallEventNotify Create "n1" "overlay_peer_table" "e1" [x01; x02];
     CallWatch "overlay_fdb" "n1" "" 2;
     Lock; LoadCancelFuncs "n1"; StoreCancelFuncs "n1"; Unlock;
     GoHandleTableEvents 2 (handleDriverTableEvent_fn "n1");
     CallDriver "n1";
     Errorf "Could not resolve driver %s while walking driver tabl: %v"].
Proof. vm_compute. reflexivity. Qed.

(** The walk is over the whole table: an entry that another network
    ("n2") holds in a declared table is delivered to the driver as a
    Create of this network ("n1"). *)
Example addDriverWatches_replays_other_networks_entries :
  let w := Sample.clustered_with
             {[("overlay_peer_table", "n2", "e9") := [x07]]} in
  let w' := world_of (addDriverWatches Sample.node Sample.overlay w) in
  store_entries w !! ("overlay_peer_table", "n1", "e9") = None ∧
  new_actions w w' =
    [CallWatch "overlay_peer_table" "n1" "" 1;
     Lock; LoadCancelFuncs "n1"; StoreCancelFuncs "n1"; Unlock;
     GoHandleTableEvents 1 (handleDriverTableEvent_fn "n1");
     CallDriver "n1";
     CallWalkTable "overlay_peer_table";
     CallEventNotify Create "n1" "overlay_peer_table" "e9" [x07]].
Proof. vm_compute. by repeat split. Qed.

(** ** The endpoint-table handler *)

(** From the lookup on, the handler neither panics nor touches the
    controller; all it does is in the trace, and for a malformed payload
    that is no service-binding call and no name-record call. *)
Lemma handleEpTableEvent_lookup_spec (X : Collaborators)
    (nid eid : string) (value : bytes) (isAdd : bool) (w : World) :
  ∃ w' l,
    handleEpTableEvent_lookup X nid eid value isAdd w = Done tt w' ∧
    ctrl w' = ctrl w ∧
    trace w' = trace w ++ l ∧
    (∃ l', l = CallNetworkByID nid :: l') ∧
    (malformed X value = true → Forall (λ a, is_quiet a = true) l).
Proof.
  unfold handleEpTableEvent_lookup, NetworkByID, get, malformed. run.
  destruct (networks (ctrl w) !! nid) as [n |]; run;
    [destruct (Unmarshal X value) as [epRec | e]; run;
     [destruct (_ || _) eqn:Hbad; run;
      [| destruct isAdd, (decide (ServiceID epRec ≠ ""));
         unfold addServiceBinding, rmServiceBinding; run;
         try case_returns; run] | ] |].
  all: eexists _, _; split; [reflexivity |]; split; [reflexivity |].
  all: split; [cbn [trace log]; rewrite <- ?app_assoc; reflexivity |].
  all: split; [eexists; reflexivity |].
  all: first [ intros _; by repeat constructor | by intros [=] ].
Qed.

Lemma handleEpTableEvent_spec (X : Collaborators) (ev : Event) (w : World) :
  ∃ w' l,
    handleEpTableEvent X ev w = Done tt w' ∧
    ctrl w' = ctrl w ∧
    trace w' = trace w ++ l ∧
    (malformed X (handler_value ev) = true →
     Forall (λ a, is_quiet a = true) l).
Proof.
  unfold handleEpTableEvent. destruct ev as [event | event | event]; run.
  1: destruct (handleEpTableEvent_lookup_spec X (NetworkID event)
                 (Key event) (Value event) true w)
       as (w' & l & ? & ? & ? & _ & ?); by exists w', l.
  1: destruct (handleEpTableEvent_lookup_spec X (NetworkID event)
                 (Key event) (Value event) false w)
       as (w' & l & ? & ? & ? & _ & ?); by exists w', l.
  destruct (handleEpTableEvent_lookup_spec X "" "" [] false
              (log (Errorf "Unexpected update service table event = %#v") w))
    as (w' & l & -> & Hc & Htr & _ & Hq).
  exists w', (Errorf "Unexpected update service table event = %#v" :: l).
  repeat split; [done | rewrite Htr; cbn [trace log]; by rewrite <- app_assoc |].
  intros Hbad. constructor; [done | by apply Hq].
Qed.

(** C4.  On an Update event the handler logs the unexpected event and,
    there being no [return] in that case, goes on to look up the network
    with the empty id: the second call it makes is [NetworkByID ""]. *)
Theorem handleEpTableEvent_Update_looks_up_network
    (X : Collaborators) (w : World) (event : TableEvent) :
  handleEpTableEvent X (UpdateEvent event) w =
    handleEpTableEvent_lookup X "" "" [] false
      (log (Errorf "Unexpected update service table event = %#v") w) ∧
  ∃ rest,
    new_actions w (world_of (handleEpTableEvent X (UpdateEvent event) w)) =
      Errorf "Unexpected update service table event = %#v"
        :: CallNetworkByID "" :: rest.
Proof.
  split; [reflexivity |].
  unfold handleEpTableEvent. run.
  destruct (handleEpTableEvent_lookup_spec X "" "" [] false
              (log (Errorf "Unexpected update service table event = %#v") w))
    as (w' & l & -> & _ & Htr & [l' ->] & _).
  exists l'. unfold new_actions. cbn [world_of]. rewrite Htr. cbn [trace log].
  by rewrite <- app_assoc, drop_app_length.
Qed.

(** The same on a node where the event's network exists and its payload
    is a well-formed record: two errors are logged and the network is
    looked up under the empty id. *)
Example handleEpTableEvent_Update_sample :
  new_actions Sample.clustered
    (world_of (handleEpTableEvent Sample.node
                 (UpdateEvent {| Table := "endpoint_table"; NetworkID := "n1";
                                 Key := "e1"; Value := Sample.web_record |})
                 Sample.clustered)) =
  [Errorf "Unexpected update service table event = %#v";
   CallNetworkByID "";
   Errorf "Could not find network %s while handling service table event: %v"].
Proof. vm_compute. reflexivity. Qed.

(** C7.  Provided the codec decodes the empty buffer to a record without
    a name (protobuf yields the zero record), an endpoint-table event
    whose value does not deserialise, or deserialises without a name or
    a parsable endpoint IP, is dropped: the handler returns, leaves the
    controller as it was and makes no service-binding and no name-record
    call; and the dispatch loop goes on, handling the next event of the
    channel in the state the dropped one left. *)
Theorem handleEpTableEvent_drops_malformed
    (X : Collaborators) (w : World) (ev : Event)
    (Hnil : malformed X [] = true)
    (Hbad : malformed X (event_value ev) = true) :
  ∃ w1 l,
    handleEpTableEvent X ev w = Done tt w1 ∧
    ctrl w1 = ctrl w ∧
    trace w1 = trace w ++ l ∧
    Forall (λ a, is_service_binding a = false ∧ is_name_record a = false) l ∧
    ∀ next ch, ∃ w2,
      handleEpTableEvent X next w1 = Done tt w2 ∧
      handleTableEvents (ev :: next :: ch) (handleEpTableEvent X) w =
        handleTableEvents ch (handleEpTableEvent X) w2.
Proof.
  destruct (handleEpTableEvent_spec X ev w) as (w1 & l & Hrun & Hc & Htr & Hq).
  exists w1, l. repeat split; try done.
  - assert (Hvalue : malformed X (handler_value ev) = true)
      by (by destruct ev).
    eapply Forall_impl; [by apply Hq |].
    intros a. unfold is_quiet.
    by destruct (is_service_binding a), (is_name_record a).
  - intros next ch.
    destruct (handleEpTableEvent_spec X next w1) as (w2 & l2 & Hrun2 & _).
    exists w2. split; [done |].
    cbn [handleTableEvents]. run. rewrite Hrun. run. by rewrite Hrun2.
Qed.

Lemma handleEpTableEvent_drops_malformed_witness :
  malformed Sample.node [] = true ∧
  malformed Sample.node [xff] = true ∧
  new_actions Sample.clustered
    (world_of
       (handleTableEvents
          [CreateEvent {| Table := "endpoint_table"; NetworkID := "n1";
                          Key := "e0"; Value := [xff] |};
           CreateEvent {| Table := "endpoint_table"; NetworkID := "n1";
                          Key := "e1"; Value := Sample.web_record |}]
          (handleEpTableEvent Sample.node) Sample.clustered)) =
  [CallNetworkByID "n1"; CallUnmarshal [xff];
   Errorf "Failed to unmarshal service table value: %v";
   CallNetworkByID "n1"; CallUnmarshal Sample.web_record;
   CallAddSvcRecords "n1" "web" Sample.ip_10_0_0_5].
Proof.
  split; [reflexivity |]. split; [reflexivity |].
  destruct (handleEpTableEvent_drops_malformed
              Sample.node Sample.clustered
              (CreateEvent {| Table := "endpoint_table"; NetworkID := "n1";
                              Key := "e0"; Value := [xff] |})
              eq_refl eq_refl)
    as (w1 & l & Hrun & _ & _ & _ & Hnext).
  destruct (Hnext (CreateEvent {| Table := "endpoint_table"; NetworkID := "n1";
                                  Key := "e1"; Value := Sample.web_record |})
                  [])
    as (w2 & Hrun2 & Hloop).
  rewrite Hloop. cbn [handleTableEvents]. rewrite run_ret. cbn [world_of].
  injection Hrun as <-. injection Hrun2 as <-.
  reflexivity.
Defined.

(** ** Cancelling the driver watches of a network *)

Lemma run_cancel (h : handle) (w : World) (ag : agent) :
  c_agent (ctrl w) = Some ag →
  cancel h w =
    Done tt (with_agent
               (agent_with_db
                  (NetworkDB_set_watches (delete h (watches (networkDB ag)))
                                         (networkDB ag)) ag)
               (log (CallCancel h) w)).
Proof.
  intros Hag. unfold cancel, get. run. cbn [log ctrl c_agent]. rewrite Hag.
  unfold set_networkDB. rewrite run_bind.
  by rewrite (run_the_agent (log _ w) ag Hag).
Qed.

(** Invoking a list of cancel functions calls each of them, in order,
    closes their watches and leaves the recorded handles alone. *)
Lemma range_cancel_spec (cancelFuncs : list handle) (w : World) (ag : agent) :
  c_agent (ctrl w) = Some ag →
  ∃ w' ag',
    range_cancel cancelFuncs w = Done tt w' ∧
    c_agent (ctrl w') = Some ag' ∧
    driverCancelFuncs ag' = driverCancelFuncs ag ∧
    trace w' = trace w ++ (CallCancel <$> cancelFuncs) ∧
    (∀ h, watches (networkDB ag) !! h = None →
          watches (networkDB ag') !! h = None) ∧
    (∀ h, h ∈ cancelFuncs → watches (networkDB ag') !! h = None).
Proof.
  revert w ag. induction cancelFuncs as [| h hs IH]; intros w ag Hag.
  - exists w, ag. cbn. rewrite app_nil_r. repeat split; try done.
    intros h Hh. by apply elem_of_nil in Hh.
  - cbn [range_cancel]. rewrite run_bind, (run_cancel h w ag Hag). run.
    match goal with
    | |- context [range_cancel hs ?W] =>
        destruct (IH W _ eq_refl)
          as (w' & ag' & -> & Hag' & Hfuncs & Htr & Hkeep & Hclosed)
    end.
    exists w', ag'. repeat split; try done.
    + rewrite Htr. cbn. by rewrite <- app_assoc.
    + intros h' Hh'. apply Hkeep. cbn. rewrite lookup_delete_None. by right.
    + intros h' [-> | Hh']%elem_of_cons; [| by apply Hclosed].
      apply Hkeep. cbn. apply lookup_delete_eq.
Qed.

(** C8.  For a cluster-eligible network cancelDriverWatches returns
    normally, whatever handles are recorded (none included).  Between
    [Lock] and [Unlock] it reads and deletes the network's entry of
    [driverCancelFuncs]; after [Unlock] it invokes the handles it read,
    each once and in order.  Afterwards the network has no recorded
    handle, the entries of other networks are as before and the
    cancelled watches are closed. *)
Theorem cancelDriverWatches_removes_and_cancels
    (w : World) (n : network) (ag : agent)
    (Hel : isClusterEligible (ctrl w) n = true)
    (Hag : c_agent (ctrl w) = Some ag) :
  let cancelFuncs := default [] (driverCancelFuncs ag !! ID n) in
  ∃ w' ag',
    cancelDriverWatches n w = Done tt w' ∧
    new_actions w w' =
      [Lock; LoadCancelFuncs (ID n); DeleteCancelFuncs (ID n); Unlock]
      ++ (CallCancel <$> cancelFuncs) ∧
    c_agent (ctrl w') = Some ag' ∧
    driverCancelFuncs ag' = delete (ID n) (driverCancelFuncs ag) ∧
    length (default [] (driverCancelFuncs ag' !! ID n)) = 0 ∧
    (∀ h, h ∈ cancelFuncs → watches (networkDB ag') !! h = None).
Proof.
  intros cancelFuncs. unfold cancelDriverWatches. run. rewrite Hel. run.
  erewrite run_the_agent by exact Hag. run.
  erewrite run_set_driverCancelFuncs by exact Hag. run.
  match goal with
  | |- context [range_cancel _ ?W] =>
      destruct (range_cancel_spec cancelFuncs W _ eq_refl)
        as (w' & ag' & Hrun & Hag' & Hfuncs & Htr & _ & Hclosed)
  end.
  fold cancelFuncs. rewrite Hrun.
  exists w', ag'. repeat split; try done.
  - unfold new_actions. rewrite Htr. cbn [trace log with_agent].
    by rewrite <- !app_assoc, drop_app_length.
  - rewrite Hfuncs. cbn. by rewrite lookup_delete_eq.
Qed.

Lemma cancelDriverWatches_removes_and_cancels_witness :
  isClusterEligible (ctrl Sample.clustered) Sample.overlay = true ∧
  ∃ w' ag',
    cancelDriverWatches Sample.overlay Sample.clustered = Done tt w' ∧
    c_agent (ctrl w') = Some ag' ∧
    length (default [] (driverCancelFuncs ag' !! "n1")) = 0.
Proof.
  split; [reflexivity |].
  destruct (cancelDriverWatches_removes_and_cancels
              Sample.clustered Sample.overlay Sample.agent0 eq_refl eq_refl)
    as (w' & ag' & Hrun & _ & Hag' & _ & Hlen & _).
  exists w', ag'. split; [exact Hrun |]. split; [exact Hag' | exact Hlen].
Defined.

(** Two watches registered by addDriverWatches are both cancelled, once
    each, by cancelDriverWatches. *)
Example addDriverWatches_then_cancelDriverWatches :
  let n := {| ID := "n1"; networkType := "overlay"; driverScope := "global";
              ingress := false;
              driverTables := ["overlay_peer_table"; "overlay_fdb"] |} in
  let w1 := world_of (addDriverWatches Sample.node n Sample.clustered) in
  let w2 := world_of (cancelDriverWatches n w1) in
  (driverCancelFuncs <$> c_agent (ctrl w1)) = Some {["n1" := [1; 2]]} ∧
  new_actions w1 w2 =
    [Lock; LoadCancelFuncs "n1"; DeleteCancelFuncs "n1"; Unlock;
     CallCancel 1; CallCancel 2] ∧
  (driverCancelFuncs <$> c_agent (ctrl w2)) = Some ∅.
Proof. vm_compute. by repeat split. Qed.

(** ** Creating the agent *)

(** C9.  On a controller configured for clustering, when the address
    does not resolve or the store does not start, agentInit returns that
    error and the controller is exactly as before: its agent field is
    not assigned (it stays unset if it was), and no watch is registered
    nor dispatch loop started. *)
Theorem agentInit_failure_leaves_no_agent
    (X : Collaborators) (w : World) (bindAddrOrInterface : string) (err : error)
    (Hcfg : isAgent (ctrl w) = true)
    (Hfail : resolveAddr X bindAddrOrInterface = Err err ∨
             ∃ bindAddr,
               resolveAddr X bindAddrOrInterface = Ok bindAddr ∧
               returns X w (CallNew (store_config X bindAddr)) = Some err) :
  ∃ w',
    agentInit X bindAddrOrInterface w = Done (Some err) w' ∧
    ctrl w' = ctrl w ∧
    (c_agent (ctrl w) = None → c_agent (ctrl w') = None) ∧
    Forall (λ a, is_Watch a = false) (new_actions w w').
Proof.
  unfold agentInit. run. rewrite Hcfg. run.
  destruct Hfail as [-> | (bindAddr & -> & Hnew)]; run.
  - exists w. repeat split; [done |].
    rewrite new_actions_same. constructor.
  - fold (store_config X bindAddr). rewrite Hnew. run.
    eexists. repeat split; [done |].
    new_actions. by repeat constructor.
Qed.

Lemma agentInit_failure_leaves_no_agent_witness :
  let w := {| ctrl := {| isAgent := true; c_agent := None; networks := ∅ |};
              trace := [] |} in
  isAgent (ctrl w) = true ∧
  resolveAddr Sample.node "eth7"
    = Err "failed to find interface eth7: no such network interface" ∧
  ∃ w', agentInit Sample.node "eth7" w
          = Done (Some "failed to find interface eth7: no such network interface") w' ∧
        c_agent (ctrl w') = None.
Proof.
  split; [reflexivity |]. split; [reflexivity |].
  destruct (agentInit_failure_leaves_no_agent
              Sample.node
              {| ctrl := {| isAgent := true; c_agent := None; networks := ∅ |};
                 trace := [] |}
              "eth7"
              "failed to find interface eth7: no such network interface"
              eq_refl (or_introl eq_refl))
    as (w' & Hrun & _ & Hnone & _).
  exists w'. split; [exact Hrun | exact (Hnone eq_refl)].
Defined.

(** The store failing to start, after the address has resolved. *)
Example agentInit_store_failure_sample :
  let X := Sample.with_returns
             (λ _ a, match a with
                     | CallNew _ => Some "failed to create memberlist"
                     | _ => None
                     end) in
  let w := {| ctrl := {| isAgent := true; c_agent := None; networks := ∅ |};
              trace := [] |} in
  let r := agentInit X "10.0.0.5" w in
  returned r = Some (Some "failed to create memberlist") ∧
  c_agent (ctrl (world_of r)) = None ∧
  trace (world_of r) =
    [CallNew {| BindAddr := "10.0.0.5"; NodeName := "node-a" |}].
Proof. vm_compute. by repeat split. Qed.

(** When both steps succeed the agent is created with the endpoint-table
    watch and its dispatch loop. *)
Example agentInit_success_sample :
  let w := {| ctrl := {| isAgent := true; c_agent := None; networks := ∅ |};
              trace := [] |} in
  let r := agentInit Sample.node "10.0.0.5" w in
  returned r = Some None ∧
  c_agent (ctrl (world_of r)) = Some Sample.agent0 ∧
  trace (world_of r) =
    [CallNew {| BindAddr := "10.0.0.5"; NodeName := "node-a" |};
     CallWatch "endpoint_table" "" "" 0;
     GoHandleTableEvents 0 handleEpTableEvent_fn].
Proof. vm_compute. by repeat split. Qed.

(** * Further properties of agent.go *)

(** ** Resolving the bind address *)

Lemma getBindAddr_range_first (X : Collaborators) (addrs : list Addr) :
  match getBindAddr_range X addrs with
  | Ok r =>
      ∃ pre a post,
        addrs = pre ++ Addr_IPNet a :: post ∧
        Forall (λ x, usable X x = false) pre ∧
        IsLinkLocalUnicast X (IPNet_IP a) = false ∧
        r = IP_String X (IPNet_IP a)
  | Err e =>
      Forall (λ x, usable X x = false) addrs ∧
      e = "failed to get bind address"
  end.
Proof.
  induction addrs as [| [addr |] addrs IH]; cbn [getBindAddr_range].
  - by split.
  - destruct (IsLinkLocalUnicast X (IPNet_IP addr)) eqn:Hll.
    + destruct (getBindAddr_range X addrs) as [r | e].
      * destruct IH as (pre & a & post & -> & Hpre & Ha & ->).
        exists (Addr_IPNet addr :: pre), a, post. repeat split; try done.
        constructor; [cbn; by rewrite Hll | done].
      * destruct IH as [Hall ->]. split; [| done].
        constructor; [cbn; by rewrite Hll | done].
    + exists [], addr, addrs. by repeat split.
  - destruct (getBindAddr_range X addrs) as [r | e].
    + destruct IH as (pre & a & post & -> & Hpre & Ha & ->).
      exists (Addr_other :: pre), a, post. repeat split; try done.
      by constructor.
    + destruct IH as [Hall ->]. split; [| done]. by constructor.
Qed.

(** X1.  resolveAddr hands a string that parses as an IP back unchanged,
    without looking at any interface.  Any other string is taken as an
    interface name: the result is the first address of that interface
    that is an IP network address and not link-local, every address
    before it having been skipped; it is an error when the interface
    does not exist, its addresses cannot be read, or none is usable. *)
Theorem resolveAddr_first_usable_address
    (X : Collaborators) (addrOrInterface : string) :
  match resolveAddr X addrOrInterface with
  | Ok r =>
      (ParseIP X addrOrInterface ≠ [] ∧ r = addrOrInterface) ∨
      (ParseIP X addrOrInterface = [] ∧
       ∃ iface pre a post,
         InterfaceByName X addrOrInterface = Ok iface ∧
         Addrs iface = Ok (pre ++ Addr_IPNet a :: post) ∧
         Forall (λ x, usable X x = false) pre ∧
         IsLinkLocalUnicast X (IPNet_IP a) = false ∧
         r = IP_String X (IPNet_IP a))
  | Err e =>
      ParseIP X addrOrInterface = [] ∧
      ((∃ e', InterfaceByName X addrOrInterface = Err e') ∨
       (∃ iface, InterfaceByName X addrOrInterface = Ok iface ∧
          ((∃ e', Addrs iface = Err e') ∨
           (∃ addrs, Addrs iface = Ok addrs ∧
                     Forall (λ x, usable X x = false) addrs ∧
                     e = "failed to get bind address"))))
  end.
Proof.
  unfold resolveAddr, getBindAddr.
  destruct (decide (ParseIP X addrOrInterface ≠ [])) as [Hip | Hnil];
    [by left |].
  apply dec_stable in Hnil.
  destruct (InterfaceByName X addrOrInterface) as [iface | e] eqn:Hif;
    [| split; [done | left; by exists e]].
  destruct (Addrs iface) as [addrs | e] eqn:Haddrs;
    [| split; [done | right; exists iface; split; [done | left; by exists e]]].
  pose proof (getBindAddr_range_first X addrs) as Hfirst.
  destruct (getBindAddr_range X addrs) as [r | e].
  - destruct Hfirst as (pre & a & post & -> & Hpre & Ha & ->).
    right. split; [done |]. by exists iface, pre, a, post.
  - destruct Hfirst as [Hall ->]. split; [done |].
    right. exists iface. split; [done |]. right. by exists addrs.
Qed.

(** On the sample host "eth0" resolves to 10.0.0.5, past the hardware
    and the link-local address; "eth1" does not exist. *)
Example resolveAddr_sample :
  resolveAddr Sample.host "eth0" = Ok "10.0.0.5" ∧
  resolveAddr Sample.host "10.0.0.5" = Ok "10.0.0.5" ∧
  resolveAddr Sample.host "eth1"
    = Err "failed to find interface eth1: no such network interface".
Proof. by repeat split. Qed.

(** ** Relations kept along a run *)

Section Preserves.
Context (R : relation World) `{!PreOrder R}.

Lemma preserves_ret {A : Type} (a : A) : preserves R (mret a : M A).
Proof. intros w. cbn. reflexivity. Qed.

Lemma preserves_bind {A B : Type} (m : M A) (f : A → M B) :
  preserves R m → (∀ a, preserves R (f a)) → preserves R (m ≫= f).
Proof.
  intros Hm Hf w. rewrite run_bind. specialize (Hm w).
  destruct (m w) as [a w' | w']; cbn [world_of] in *; [| done].
  trans w'; [exact Hm | apply Hf].
Qed.

Lemma ensures_ret {A : Type} (a : A) : ensures R (mret a : M A).
Proof. intros w. by exists a, w. Qed.

Lemma ensures_bind {A B : Type} (m : M A) (f : A → M B) :
  ensures R m → (∀ a, ensures R (f a)) → ensures R (m ≫= f).
Proof.
  intros Hm Hf w. rewrite run_bind.
  destruct (Hm w) as (a & w' & -> & Hw').
  destruct (Hf a w') as (b & w'' & -> & Hw'').
  exists b, w''. split; [done | by trans w'].
Qed.

Lemma ensures_preserves {A : Type} (m : M A) : ensures R m → preserves R m.
Proof. intros Hm w. by destruct (Hm w) as (a & w' & -> & Hw'). Qed.

(** A run that reads the state, or stops, changes nothing. *)
Lemma preserves_getController : preserves R getController.
Proof. intros w. cbn. reflexivity. Qed.

Lemma preserves_get : preserves R get.
Proof. intros w. cbn. reflexivity. Qed.

Lemma preserves_the_agent : preserves R the_agent.
Proof. intros w. unfold the_agent. destruct (c_agent (ctrl w)); cbn; reflexivity. Qed.

Lemma preserves_panic {A : Type} : preserves R (panic : M A).
Proof. intros w. cbn. reflexivity. Qed.

Lemma ensures_getController : ensures R getController.
Proof. intros w. by exists (ctrl w), w. Qed.
End Preserves.

#[global] Instance agent_kept_preorder : PreOrder agent_kept.
Proof.
  split.
  - intros w. repeat split. destruct (c_agent (ctrl w)) as [ag |]; eauto.
  - intros w1 w2 w3 (Hi12 & Hn12 & H12) (Hi23 & Hn23 & H23).
    split; [congruence |]. split; [congruence |].
    destruct (c_agent (ctrl w1)) as [ag1 |].
    + destruct H12 as (ag2 & Hag2 & Hb & He). rewrite Hag2 in H23.
      destruct H23 as (ag3 & Hag3 & Hb' & He').
      exists ag3. split; [done |]. split; congruence.
    + by rewrite H12 in H23.
Qed.

#[global] Instance entries_kept_outside_preorder
    (K : string * string * string → Prop) : PreOrder (entries_kept_outside K).
Proof.
  split.
  - by intros w k Hk.
  - intros w1 w2 w3 H12 H23 k Hk. by rewrite H23, H12.
Qed.

#[global] Instance only_did_preorder (P : Action → bool) : PreOrder (only_did P).
Proof.
  split.
  - intros w. split; [done |]. exists []. by rewrite app_nil_r.
  - intros w1 w2 w3 (Hc12 & l12 & Ht12 & Hl12) (Hc23 & l23 & Ht23 & Hl23).
    split; [congruence |]. exists (l12 ++ l23).
    split; [by rewrite Ht23, Ht12, app_assoc | by apply Forall_app].
Qed.

(** An observed call leaves the controller alone. *)
Lemma agent_kept_ctrl (w w' : World) : ctrl w' = ctrl w → agent_kept w w'.
Proof.
  intros Hc. unfold agent_kept. rewrite Hc. repeat split.
  destruct (c_agent (ctrl w)) as [ag |]; eauto.
Qed.

Lemma entries_kept_ctrl (K : string * string * string → Prop) (w w' : World) :
  ctrl w' = ctrl w → entries_kept_outside K w w'.
Proof. intros Hc k _. unfold store_entries. by rewrite Hc. Qed.

Lemma preserves_call_agent (a : Action) : preserves agent_kept (call a).
Proof. intros w. by apply agent_kept_ctrl. Qed.

Lemma preserves_call_entries (K : string * string * string → Prop) (a : Action) :
  preserves (entries_kept_outside K) (call a).
Proof. intros w. by apply entries_kept_ctrl. Qed.

Lemma ensures_call_only (P : Action → bool) (a : Action) :
  P a = true → ensures (only_did P) (call a).
Proof.
  intros Ha w. exists tt, (log a w). split; [done |]. split; [done |].
  exists [a]. split; [done | by constructor].
Qed.

Lemma preserves_fallible_agent (X : Collaborators) (a : Action) :
  preserves agent_kept (fallible X a).
Proof. intros w. by apply agent_kept_ctrl. Qed.

Lemma preserves_fallible_entries (X : Collaborators)
    (K : string * string * string → Prop) (a : Action) :
  preserves (entries_kept_outside K) (fallible X a).
Proof. intros w. by apply entries_kept_ctrl. Qed.

Lemma ensures_fallible_only (X : Collaborators) (P : Action → bool) (a : Action) :
  P a = true → ensures (only_did P) (fallible X a).
Proof.
  intros Ha w. exists (returns X w a), (log a w). split; [done |].
  split; [done |]. exists [a]. split; [done | by constructor].
Qed.

Lemma ensures_NetworkByID_only (P : Action → bool) (nid : string) :
  P (CallNetworkByID nid) = true → ensures (only_did P) (NetworkByID nid).
Proof.
  intros Ha w. unfold NetworkByID, get. run.
  destruct (networks (ctrl w) !! nid); run; eexists _, _;
    (split; [done |]); (split; [done |]);
    exists [CallNetworkByID nid]; by repeat constructor.
Qed.

(** A store call replaces the store of the agent and nothing else. *)
Lemma preserves_store_call_agent (X : Collaborators) (a : Action)
    (f : NetworkDB → NetworkDB) :
  preserves agent_kept (store_call X a f).
Proof.
  intros w. destruct (c_agent (ctrl w)) as [ag |] eqn:Hag.
  - rewrite (run_store_call X a f w ag Hag).
    destruct (returns X w a); cbn [world_of]; [by apply agent_kept_ctrl |].
    repeat split. cbn. rewrite Hag. by eexists.
  - unfold store_call, the_agent. rewrite run_bind, Hag. reflexivity.
Qed.

Lemma preserves_store_call_entries (X : Collaborators)
    (K : string * string * string → Prop) (a : Action)
    (f : NetworkDB → NetworkDB) :
  (∀ db k, ¬ K k → entries (f db) !! k = entries db !! k) →
  preserves (entries_kept_outside K) (store_call X a f).
Proof.
  intros Hf w. destruct (c_agent (ctrl w)) as [ag |] eqn:Hag.
  - rewrite (run_store_call X a f w ag Hag).
    destruct (returns X w a); cbn [world_of]; [by apply entries_kept_ctrl |].
    intros k Hk. unfold store_entries. cbn. rewrite Hag. by apply Hf.
  - unfold store_call, the_agent. rewrite run_bind, Hag. reflexivity.
Qed.

Lemma preserves_set_driverCancelFuncs_agent (m : gmap string (list handle)) :
  preserves agent_kept (set_driverCancelFuncs m).
Proof.
  intros w. unfold set_driverCancelFuncs, the_agent. rewrite run_bind.
  destruct (c_agent (ctrl w)) as [ag |] eqn:Hag; cbn; [| reflexivity].
  repeat split. rewrite Hag. by eexists.
Qed.

Lemma preserves_set_driverCancelFuncs_entries
    (K : string * string * string → Prop) (m : gmap string (list handle)) :
  preserves (entries_kept_outside K) (set_driverCancelFuncs m).
Proof.
  intros w. unfold set_driverCancelFuncs, the_agent. rewrite run_bind.
  destruct (c_agent (ctrl w)) as [ag |] eqn:Hag; cbn; [| reflexivity].
  intros k _. unfold store_entries. cbn. by rewrite Hag.
Qed.

Lemma preserves_Watch_agent (tname nid k : string) :
  preserves agent_kept (Watch tname nid k).
Proof.
  intros w. destruct (c_agent (ctrl w)) as [ag |] eqn:Hag.
  - rewrite (run_Watch tname nid k w ag Hag). repeat split.
    cbn. rewrite Hag. by eexists.
  - unfold Watch, the_agent. rewrite run_bind, Hag. reflexivity.
Qed.

Lemma preserves_Watch_entries (K : string * string * string → Prop)
    (tname nid k : string) :
  preserves (entries_kept_outside K) (Watch tname nid k).
Proof.
  intros w. destruct (c_agent (ctrl w)) as [ag |] eqn:Hag.
  - rewrite (run_Watch tname nid k w ag Hag).
    intros k' _. unfold store_entries. cbn. by rewrite Hag.
  - unfold Watch, the_agent. rewrite run_bind, Hag. reflexivity.
Qed.

Lemma preserves_cancel_agent (h : handle) : preserves agent_kept (cancel h).
Proof.
  intros w. destruct (c_agent (ctrl w)) as [ag |] eqn:Hag.
  - rewrite (run_cancel h w ag Hag). repeat split.
    cbn. rewrite Hag. by eexists.
  - unfold cancel, get. run. cbn [log ctrl c_agent]. rewrite Hag. run.
    by apply agent_kept_ctrl.
Qed.

Lemma preserves_cancel_entries (K : string * string * string → Prop)
    (h : handle) :
  preserves (entries_kept_outside K) (cancel h).
Proof.
  intros w. destruct (c_agent (ctrl w)) as [ag |] eqn:Hag.
  - rewrite (run_cancel h w ag Hag).
    intros k' _. unfold store_entries. cbn. by rewrite Hag.
  - unfold cancel, get. run. cbn [log ctrl c_agent]. rewrite Hag. run.
    by apply entries_kept_ctrl.
Qed.

Create HintDb keeps.

#[global] Hint Resolve agent_kept_preorder entries_kept_outside_preorder
  preserves_getController preserves_get preserves_the_agent preserves_panic
  preserves_call_agent preserves_call_entries
  preserves_fallible_agent preserves_fallible_entries
  preserves_store_call_agent
  preserves_set_driverCancelFuncs_agent preserves_set_driverCancelFuncs_entries
  preserves_Watch_agent preserves_Watch_entries
  preserves_cancel_agent preserves_cancel_entries : keeps.

(** Apply a lemma about a relation kept along a run, finding out that
    the relation is a preorder. *)
Ltac rapply lem :=
  eapply lem;
  lazymatch goal with
  | |- PreOrder _ => apply _
  | _ => idtac
  end.

(** Split a run at its binds and branches; what is left is a call the
    hints know. *)
Ltac keep :=
  repeat lazymatch goal with
    | |- preserves _ (mbind _ _) => rapply preserves_bind; [| intros ?]
    | |- preserves _ (mret _) => rapply preserves_ret
    | |- preserves _ (match ?x with _ => _ end) => destruct x eqn:?
    | |- preserves _ _ => solve [eauto with keeps]
    end.

Section Loops.
Context (R : relation World) `{!PreOrder R}.

Lemma preserves_walk (fn : string → string → bytes → M bool)
    (es : list (string * string * bytes)) :
  (∀ nid k v, preserves R (fn nid k v)) → preserves R (walk fn es).
Proof.
  intros Hfn. induction es as [| [[nid k] v] es IH]; cbn [walk].
  - rapply preserves_ret.
  - rapply preserves_bind; [apply Hfn |].
    intros []; [rapply preserves_ret | apply IH].
Qed.

Lemma preserves_handleTableEvents (ch : list Event) (fn : Event → M unit) :
  (∀ ev, preserves R (fn ev)) → preserves R (handleTableEvents ch fn).
Proof.
  intros Hfn. induction ch as [| ev ch IH]; cbn [handleTableEvents].
  - rapply preserves_ret.
  - rapply preserves_bind; [apply Hfn | intros _; apply IH].
Qed.

Lemma ensures_handleTableEvents (ch : list Event) (fn : Event → M unit) :
  (∀ ev, ensures R (fn ev)) → ensures R (handleTableEvents ch fn).
Proof.
  intros Hfn. induction ch as [| ev ch IH]; cbn [handleTableEvents].
  - rapply ensures_ret.
  - rapply ensures_bind; [apply Hfn | intros _; apply IH].
Qed.
End Loops.

(** *** The agent is kept *)

Lemma preserves_range_cancel_agent (cancelFuncs : list handle) :
  preserves agent_kept (range_cancel cancelFuncs).
Proof. induction cancelFuncs; cbn [range_cancel]; keep. Qed.

Lemma preserves_range_CreateEntry_agent (X : Collaborators) (n : network)
    (tes : list tableEntry) :
  preserves agent_kept (range_CreateEntry X n tes).
Proof. induction tes; cbn [range_CreateEntry]; unfold CreateEntry; keep. Qed.

Lemma preserves_range_DeleteEntry_agent (X : Collaborators) (n : network)
    (tes : list tableEntry) :
  preserves agent_kept (range_DeleteEntry X n tes).
Proof. induction tes; cbn [range_DeleteEntry]; unfold DeleteEntry; keep. Qed.

Lemma preserves_WalkTable_agent (n : network) (tname : string) :
  preserves agent_kept (WalkTable tname (notify_Create n tname)).
Proof.
  unfold WalkTable. keep. rapply preserves_walk.
  intros nid k v. unfold notify_Create. keep.
Qed.

#[global] Hint Resolve preserves_range_cancel_agent
  preserves_range_CreateEntry_agent preserves_range_DeleteEntry_agent
  preserves_WalkTable_agent : keeps.

Lemma preserves_addDriverWatches_range_agent (X : Collaborators) (n : network)
    (tables : list string) :
  preserves agent_kept (addDriverWatches_range X n tables).
Proof.
  induction tables; cbn [addDriverWatches_range]; unfold driver; keep.
Qed.

#[global] Hint Resolve preserves_addDriverWatches_range_agent : keeps.

Lemma preserves_handleEpTableEvent_agent (X : Collaborators) (ev : Event) :
  preserves agent_kept (handleEpTableEvent X ev).
Proof.
  intros w. destruct (handleEpTableEvent_spec X ev w) as (w' & l & -> & Hc & _).
  by apply agent_kept_ctrl.
Qed.

Lemma preserves_handleDriverTableEvent_agent (X : Collaborators) (n : network)
    (ev : Event) :
  preserves agent_kept (handleDriverTableEvent X n ev).
Proof. unfold handleDriverTableEvent, driver. keep. Qed.

(** X2.  Only agentInit and agentClose assign [c.agent].  Every other
    operation, whatever the collaborators answer and whether it returns
    or panics, leaves the controller's configuration and networks as
    they were and keeps the agent: unset if it was unset, and otherwise
    set with the same bind address and the same endpoint-table cancel
    function. *)
Theorem operations_keep_the_agent
    (X : Collaborators) (n : network) (ep : endpoint) (remote : string)
    (ch : list Event) :
  preserves agent_kept (agentJoin X remote) ∧
  preserves agent_kept agentDriverNotify ∧
  preserves agent_kept (joinCluster X n) ∧
  preserves agent_kept (leaveCluster X n) ∧
  preserves agent_kept (addToCluster X ep) ∧
  preserves agent_kept (deleteFromCluster X ep) ∧
  preserves agent_kept (addDriverWatches X n) ∧
  preserves agent_kept (cancelDriverWatches n) ∧
  preserves agent_kept (handleTableEvents ch (handleEpTableEvent X)) ∧
  preserves agent_kept (handleTableEvents ch (handleDriverTableEvent X n)).
Proof.
  repeat apply conj.
  - unfold agentJoin, Join. keep.
  - unfold agentDriverNotify. keep.
  - unfold joinCluster, JoinNetwork. keep.
  - unfold leaveCluster, LeaveNetwork. keep.
  - unfold addToCluster, addServiceBinding, CreateEntry. cbv zeta. keep.
  - unfold deleteFromCluster, rmServiceBinding, DeleteEntry. cbv zeta. keep.
  - unfold addDriverWatches. keep.
  - unfold cancelDriverWatches. keep.
  - rapply preserves_handleTableEvents.
    apply preserves_handleEpTableEvent_agent.
  - rapply preserves_handleTableEvents.
    apply preserves_handleDriverTableEvent_agent.
Qed.

(** Eligibility only reads the agent's presence, so it is stable under
    all of these. *)
Lemma agent_kept_isClusterEligible (w w' : World) (n : network) :
  agent_kept w w' →
  isClusterEligible (ctrl w') n = isClusterEligible (ctrl w) n.
Proof.
  intros (_ & _ & Hag). unfold isClusterEligible.
  destruct (decide (driverScope n ≠ GlobalScope)); [done |].
  destruct (c_agent (ctrl w)) as [ag |].
  - by destruct Hag as (ag' & -> & _).
  - by rewrite Hag.
Qed.

(** *** The store entries are kept *)

Lemma preserves_CreateEntry_entries (X : Collaborators)
    (K : string * string * string → Prop) (tname nid k : string) (v : bytes) :
  K (tname, nid, k) →
  preserves (entries_kept_outside K) (CreateEntry X tname nid k v).
Proof.
  intros HK. apply preserves_store_call_entries. intros db k' Hk'. cbn.
  apply lookup_insert_ne. by intros <-.
Qed.

Lemma preserves_DeleteEntry_entries (X : Collaborators)
    (K : string * string * string → Prop) (tname nid k : string) :
  K (tname, nid, k) →
  preserves (entries_kept_outside K) (DeleteEntry X tname nid k).
Proof.
  intros HK. apply preserves_store_call_entries. intros db k' Hk'. cbn.
  apply lookup_delete_ne. by intros <-.
Qed.

Lemma preserves_range_CreateEntry_entries (X : Collaborators)
    (K : string * string * string → Prop) (n : network) (tes : list tableEntry) :
  (∀ te, te ∈ tes → K (entry_key n te)) →
  preserves (entries_kept_outside K) (range_CreateEntry X n tes).
Proof.
  induction tes as [| te tes IH]; intros HK; cbn [range_CreateEntry].
  - rapply preserves_ret.
  - rapply preserves_bind.
    + apply preserves_CreateEntry_entries, (HK te). left.
    + intros [e |]; [rapply preserves_ret |].
      apply IH. intros te' Hte'. apply HK. by right.
Qed.

Lemma preserves_range_DeleteEntry_entries (X : Collaborators)
    (K : string * string * string → Prop) (n : network) (tes : list tableEntry) :
  (∀ te, te ∈ tes → K (entry_key n te)) →
  preserves (entries_kept_outside K) (range_DeleteEntry X n tes).
Proof.
  induction tes as [| te tes IH]; intros HK; cbn [range_DeleteEntry].
  - rapply preserves_ret.
  - rapply preserves_bind.
    + apply preserves_DeleteEntry_entries, (HK te). left.
    + intros [e |]; [rapply preserves_ret |].
      apply IH. intros te' Hte'. apply HK. by right.
Qed.

Lemma endpoint_keys_entry (ep : endpoint) (ji : endpointJoinInfo) :
  joinInfo ep = Some ji →
  ∀ te, te ∈ driverTableEntries ji →
        endpoint_keys ep (entry_key (getNetwork ep) te).
Proof. intros Hji te Hte. right. by exists ji, te. Qed.

(** X3.  Whatever the collaborators answer, and whether it returns nil,
    an error or panics, addToCluster changes no store entry other than
    the endpoint's own: its "endpoint_table" entry and the entries named
    by its join information; neither does deleteFromCluster. *)
Theorem publication_touches_own_entries_only
    (X : Collaborators) (ep : endpoint) :
  preserves (entries_kept_outside (endpoint_keys ep)) (addToCluster X ep) ∧
  preserves (entries_kept_outside (endpoint_keys ep)) (deleteFromCluster X ep).
Proof.
  split.
  - unfold addToCluster, addServiceBinding. cbv zeta. keep.
    all: first
      [ apply preserves_CreateEntry_entries; by left
      | apply preserves_range_CreateEntry_entries;
        by apply endpoint_keys_entry ].
  - unfold deleteFromCluster, rmServiceBinding. cbv zeta. keep.
    all: first
      [ apply preserves_DeleteEntry_entries; by left
      | apply preserves_range_DeleteEntry_entries;
        by apply endpoint_keys_entry ].
Qed.

Lemma preserves_range_cancel_entries (K : string * string * string → Prop)
    (cancelFuncs : list handle) :
  preserves (entries_kept_outside K) (range_cancel cancelFuncs).
Proof. induction cancelFuncs; cbn [range_cancel]; keep. Qed.

Lemma preserves_WalkTable_entries (K : string * string * string → Prop)
    (n : network) (tname : string) :
  preserves (entries_kept_outside K) (WalkTable tname (notify_Create n tname)).
Proof.
  unfold WalkTable. keep. rapply preserves_walk.
  intros nid k v. unfold notify_Create. keep.
Qed.

#[global] Hint Resolve preserves_range_cancel_entries
  preserves_WalkTable_entries : keeps.

Lemma preserves_addDriverWatches_range_entries (X : Collaborators)
    (K : string * string * string → Prop) (n : network) (tables : list string) :
  preserves (entries_kept_outside K) (addDriverWatches_range X n tables).
Proof.
  induction tables; cbn [addDriverWatches_range]; unfold driver; keep.
Qed.

#[global] Hint Resolve preserves_addDriverWatches_range_entries : keeps.

(** X4.  Entries are written by addToCluster and deleteFromCluster only.
    Notifying a driver, adding and cancelling driver watches and the two
    dispatch loops leave every entry of the store as it was.  agentJoin,
    joinCluster and leaveCluster make one call at most, their own
    membership call on the store, and so neither CreateEntry nor
    DeleteEntry; what the store does with its entries on such a call is
    its own business. *)
Theorem other_operations_write_no_entry
    (X : Collaborators) (n : network) (remote : string) (ch : list Event)
    (w : World) :
  store_entries (world_of (agentDriverNotify w)) = store_entries w ∧
  store_entries (world_of (addDriverWatches X n w)) = store_entries w ∧
  store_entries (world_of (cancelDriverWatches n w)) = store_entries w ∧
  store_entries (world_of (handleTableEvents ch (handleEpTableEvent X) w))
    = store_entries w ∧
  store_entries (world_of (handleTableEvents ch (handleDriverTableEvent X n) w))
    = store_entries w ∧
  new_actions w (world_of (agentJoin X remote w)) =
    match c_agent (ctrl w) with
    | Some _ => [CallJoin remote]
    | None => []
    end ∧
  new_actions w (world_of (joinCluster X n w)) =
    (if isClusterEligible (ctrl w) n then [CallJoinNetwork (ID n)] else []) ∧
  new_actions w (world_of (leaveCluster X n w)) =
    (if isClusterEligible (ctrl w) n then [CallLeaveNetwork (ID n)] else []).
Proof.
  assert (Hall : ∀ (A : Type) (m : M A),
            preserves (entries_kept_outside (λ _, False)) m →
            store_entries (world_of (m w)) = store_entries w).
  { intros A m Hm. apply map_eq. intros k. apply Hm. tauto. }
  repeat apply conj; try apply Hall.
  - unfold agentDriverNotify. keep.
  - unfold addDriverWatches. keep.
  - unfold cancelDriverWatches. keep.
  - rapply preserves_handleTableEvents. intros ev w0.
    destruct (handleEpTableEvent_spec X ev w0) as (w' & l & -> & Hc & _).
    by apply entries_kept_ctrl.
  - rapply preserves_handleTableEvents. intros ev.
    unfold handleDriverTableEvent, driver. keep.
  - unfold agentJoin. run.
    destruct (c_agent (ctrl w)) as [ag |] eqn:Hag; run;
      [| apply new_actions_same].
    run_store Hag. case_returns; run; by new_actions.
  - unfold joinCluster. run.
    destruct (isClusterEligible (ctrl w) n) eqn:Hel; run;
      [| apply new_actions_same].
    destruct (isClusterEligible_agent _ _ Hel) as [ag Hag].
    run_store Hag. case_returns; run; by new_actions.
  - unfold leaveCluster. run.
    destruct (isClusterEligible (ctrl w) n) eqn:Hel; run;
      [| apply new_actions_same].
    destruct (isClusterEligible_agent _ _ Hel) as [ag Hag].
    run_store Hag. case_returns; run; by new_actions.
Qed.

(** ** The life of the agent *)

(** X5.  The lifecycle operations are guarded: agentInit does nothing on
    a controller that is not configured for clustering, and agentJoin,
    agentDriverNotify and agentClose do nothing when there is no agent;
    each returns normally (nil where it returns an error) with the state
    and the trace of calls unchanged. *)
Theorem lifecycle_guards
    (X : Collaborators) (w : World) (bindAddrOrInterface remote : string) :
  (isAgent (ctrl w) = false →
     agentInit X bindAddrOrInterface w = Done None w) ∧
  (c_agent (ctrl w) = None →
     agentJoin X remote w = Done None w ∧
     agentDriverNotify w = Done tt w ∧
     agentClose w = Done tt w).
Proof.
  split.
  - intros Hcfg. unfold agentInit. run. by rewrite Hcfg.
  - intros Hnil. unfold agentJoin, agentDriverNotify, agentClose. run.
    by rewrite Hnil.
Qed.

Lemma lifecycle_guards_witness :
  isAgent (ctrl Sample.standalone) = false ∧
  c_agent (ctrl Sample.standalone) = None ∧
  agentInit Sample.node "10.0.0.5" Sample.standalone
    = Done None Sample.standalone ∧
  agentClose Sample.standalone = Done tt Sample.standalone.
Proof.
  split; [reflexivity |]. split; [reflexivity |].
  split.
  - apply (lifecycle_guards Sample.node Sample.standalone "10.0.0.5" "").
    reflexivity.
  - apply (lifecycle_guards Sample.node Sample.standalone "10.0.0.5" "").
    reflexivity.
Defined.

Lemma elem_of_recorded_handles (ag : agent) (h : handle) :
  h ∈ recorded_handles ag ↔
  ∃ nid l, driverCancelFuncs ag !! nid = Some l ∧ h ∈ l.
Proof.
  unfold recorded_handles. rewrite list_elem_of_In, in_concat. split.
  - intros (l & Hl & Hh). apply list_elem_of_In in Hl, Hh.
    apply list_elem_of_fmap in Hl as ([nid l'] & -> & Hin).
    apply elem_of_map_to_list in Hin. by exists nid, l'.
  - intros (nid & l & Hl & Hh). exists l.
    split; apply list_elem_of_In; [| done].
    apply list_elem_of_fmap. exists (nid, l).
    split; [done | by apply elem_of_map_to_list].
Qed.

(** X6.  agentClose, when there is an agent, cancels every cancel
    function recorded for any network, each occurrence once, then the
    endpoint-table watch, then closes the store, and clears [c.agent];
    the rest of the controller is as before. *)
Theorem agentClose_cancels_every_watch
    (w : World) (ag : agent)
    (Hag : c_agent (ctrl w) = Some ag) :
  ∃ w',
    agentClose w = Done tt w' ∧
    c_agent (ctrl w') = None ∧
    isAgent (ctrl w') = isAgent (ctrl w) ∧
    networks (ctrl w') = networks (ctrl w) ∧
    new_actions w w' =
      (CallCancel <$> recorded_handles ag)
      ++ [CallCancel (epTblCancel ag); CallClose] ∧
    ∀ nid l h, driverCancelFuncs ag !! nid = Some l → h ∈ l →
               CallCancel h ∈ new_actions w w'.
Proof.
  destruct (range_cancel_spec (recorded_handles ag) w ag Hag)
    as (w1 & ag1 & Hrun & Hag1 & _ & Htr & _).
  destruct (preserves_range_cancel_agent (recorded_handles ag) w)
    as (Hcfg & Hnets & _).
  rewrite Hrun in Hcfg, Hnets. cbn [world_of] in Hcfg, Hnets.
  assert (Hnew : ∃ w',
            agentClose w = Done tt w' ∧
            c_agent (ctrl w') = None ∧
            isAgent (ctrl w') = isAgent (ctrl w) ∧
            networks (ctrl w') = networks (ctrl w) ∧
            new_actions w w' =
              (CallCancel <$> recorded_handles ag)
              ++ [CallCancel (epTblCancel ag); CallClose]).
  { unfold agentClose. run. rewrite Hag. run.
    fold (recorded_handles ag). rewrite Hrun. run.
    rewrite (run_cancel (epTblCancel ag) w1 ag1 Hag1). run.
    unfold set_agent. eexists. split; [reflexivity |].
    repeat split; try done.
    unfold new_actions. cbn [trace log with_agent]. rewrite Htr.
    by rewrite <- !app_assoc, drop_app_length. }
  destruct Hnew as (w' & Hclose & Hnone & Hcfg' & Hnets' & Hnew).
  exists w'. repeat split; try done.
  intros nid l h Hl Hh. rewrite Hnew, elem_of_app. left.
  apply list_elem_of_fmap. exists h. split; [done |].
  apply elem_of_recorded_handles. by exists nid, l.
Qed.

Lemma agentClose_cancels_every_watch_witness :
  c_agent (ctrl Sample.clustered) = Some Sample.agent0 ∧
  ∃ w', agentClose Sample.clustered = Done tt w' ∧
        c_agent (ctrl w') = None.
Proof.
  split; [reflexivity |].
  destruct (agentClose_cancels_every_watch
              Sample.clustered Sample.agent0 eq_refl)
    as (w' & Hrun & Hnone & _).
  exists w'. split; [exact Hrun | exact Hnone].
Defined.

(** X7.  On a controller configured for clustering, when the address
    resolves and the store starts, agentInit returns nil and leaves an
    agent bound to the resolved address, with no driver cancel function
    recorded and a fresh store whose only watch is the unfiltered one on
    "endpoint_table"; the dispatch loop of that watch is started with
    the endpoint-table handler.  agentClose then undoes it: the watch is
    cancelled once, the store is closed and [c.agent] is nil again. *)
Theorem agentInit_then_agentClose
    (X : Collaborators) (w : World) (bindAddrOrInterface addr : string)
    (Hcfg : isAgent (ctrl w) = true)
    (Haddr : resolveAddr X bindAddrOrInterface = Ok addr)
    (Hnew : returns X w (CallNew (store_config X addr)) = None) :
  ∃ w1 ag w2,
    agentInit X bindAddrOrInterface w = Done None w1 ∧
    c_agent (ctrl w1) = Some ag ∧
    bindAddr ag = addr ∧
    driverCancelFuncs ag = ∅ ∧
    entries (networkDB ag) = ∅ ∧
    watches (networkDB ag) = {[epTblCancel ag := ("endpoint_table", "", "")]} ∧
    new_actions w w1 =
      [CallNew (store_config X addr);
       CallWatch "endpoint_table" "" "" (epTblCancel ag);
       GoHandleTableEvents (epTblCancel ag) handleEpTableEvent_fn] ∧
    agentClose w1 = Done tt w2 ∧
    c_agent (ctrl w2) = None ∧
    new_actions w1 w2 = [CallCancel (epTblCancel ag); CallClose].
Proof.
  unfold agentInit. run. rewrite Hcfg, Haddr. run.
  fold (store_config X addr). rewrite Hnew. run.
  unfold set_agent. run.
  eexists _, _, _. split; [reflexivity |]. split; [reflexivity |].
  do 4 (split; [reflexivity |]).
  split; [by new_actions |].
  assert (Hclose : ∀ w1 ag,
            c_agent (ctrl w1) = Some ag → driverCancelFuncs ag = ∅ →
            agentClose w1 =
              Done tt {| ctrl := {| isAgent := isAgent (ctrl w1);
                                    c_agent := None;
                                    networks := networks (ctrl w1) |};
                         trace := trace w1 ++ [CallCancel (epTblCancel ag);
                                               CallClose] |}).
  { intros w1 ag Hag Hnone. unfold agentClose. run. rewrite Hag, Hnone. run.
    rewrite map_to_list_empty. cbn [map concat range_cancel]. run.
    rewrite (run_cancel (epTblCancel ag) w1 ag Hag). run.
    unfold set_agent. cbn. by rewrite <- app_assoc. }
  erewrite Hclose by reflexivity.
  split; [reflexivity |]. split; [reflexivity |].
  unfold new_actions. cbn [trace]. by rewrite drop_app_length.
Qed.

Lemma agentInit_then_agentClose_witness :
  let w := {| ctrl := {| isAgent := true; c_agent := None; networks := ∅ |};
              trace := [] |} in
  isAgent (ctrl w) = true ∧
  resolveAddr Sample.host "eth0" = Ok "10.0.0.5" ∧
  ∃ w1 ag w2,
    agentInit Sample.host "eth0" w = Done None w1 ∧
    c_agent (ctrl w1) = Some ag ∧
    bindAddr ag = "10.0.0.5" ∧
    agentClose w1 = Done tt w2 ∧
    c_agent (ctrl w2) = None.
Proof.
  split; [reflexivity |]. split; [reflexivity |].
  destruct (agentInit_then_agentClose
              Sample.host
              {| ctrl := {| isAgent := true; c_agent := None; networks := ∅ |};
                 trace := [] |}
              "eth0" "10.0.0.5" eq_refl eq_refl eq_refl)
    as (w1 & ag & w2 & Hinit & Hag & Hbind & _ & _ & _ & _ & Hclose & Hnone & _).
  exists w1, ag, w2.
  split; [exact Hinit |]. split; [exact Hag |]. split; [exact Hbind |].
  split; [exact Hclose | exact Hnone].
Defined.

(** ** What publishing and retracting leave in the store *)

Lemma store_entries_with_db (w : World) (ag : agent) (db : NetworkDB) :
  store_entries (with_agent (agent_with_db db ag) w) = entries db.
Proof. reflexivity. Qed.

(** The creating loop stops at the first CreateEntry that fails: the
    entries before it have been created and stay, those after it are
    not attempted. *)
Lemma range_CreateEntry_prefix (X : Collaborators) (n : network)
    (tes : list tableEntry) (w : World) (ag : agent) :
  c_agent (ctrl w) = Some ag →
  ∃ r w' k,
    range_CreateEntry X n tes w = Done r w' ∧
    k ≤ length tes ∧
    trace w' = trace w ++ (create_call n <$> take k tes) ∧
    match r with
    | None => k = length tes ∧
              store_entries w' = created n (store_entries w) tes
    | Some _ => 0 < k ∧
                store_entries w' = created n (store_entries w) (take (k - 1) tes)
    end.
Proof.
  revert w ag. induction tes as [| te tes IH]; intros w ag Hag.
  - exists None, w, 0. cbn. by rewrite app_nil_r.
  - cbn [range_CreateEntry]. run. run_store Hag. case_returns; run.
    + eexists (Some e), _, 1. split; [done |]. cbn [length take fmap list_fmap].
      split; [lia |]. split; [done |]. split; [lia |]. by rewrite take_0.
    + match goal with
      | |- context [range_CreateEntry _ _ _ ?W] =>
          destruct (IH W _ eq_refl) as (r & w' & k & -> & Hk & Htr & Hr)
      end.
      exists r, w', (S k). split; [done |]. cbn [length take].
      split; [lia |].
      split; [rewrite Htr; cbn [trace log with_agent]; by rewrite <- app_assoc |].
      rewrite store_entries_with_db in Hr.
      assert (Hes0 : store_entries w = entries (networkDB ag))
        by (unfold store_entries; by rewrite Hag).
      rewrite Hes0.
      destruct r as [e |]; destruct Hr as [Hk' Hes]; (split; [lia |]).
      * destruct k as [| k]; [lia |].
        replace (S (S k) - 1) with (S k) by lia.
        replace (S k - 1) with k in Hes by lia.
        exact Hes.
      * exact Hes.
Qed.

Lemma range_DeleteEntry_prefix (X : Collaborators) (n : network)
    (tes : list tableEntry) (w : World) (ag : agent) :
  c_agent (ctrl w) = Some ag →
  ∃ r w' k,
    range_DeleteEntry X n tes w = Done r w' ∧
    k ≤ length tes ∧
    trace w' = trace w ++ (delete_call n <$> take k tes) ∧
    match r with
    | None => k = length tes ∧
              store_entries w' = deleted n (store_entries w) tes
    | Some _ => 0 < k ∧
                store_entries w' = deleted n (store_entries w) (take (k - 1) tes)
    end.
Proof.
  revert w ag. induction tes as [| te tes IH]; intros w ag Hag.
  - exists None, w, 0. cbn. by rewrite app_nil_r.
  - cbn [range_DeleteEntry]. run. run_store Hag. case_returns; run.
    + eexists (Some e), _, 1. split; [done |]. cbn [length take fmap list_fmap].
      split; [lia |]. split; [done |]. split; [lia |]. by rewrite take_0.
    + match goal with
      | |- context [range_DeleteEntry _ _ _ ?W] =>
          destruct (IH W _ eq_refl) as (r & w' & k & -> & Hk & Htr & Hr)
      end.
      exists r, w', (S k). split; [done |]. cbn [length take].
      split; [lia |].
      split; [rewrite Htr; cbn [trace log with_agent]; by rewrite <- app_assoc |].
      rewrite store_entries_with_db in Hr.
      assert (Hes0 : store_entries w = entries (networkDB ag))
        by (unfold store_entries; by rewrite Hag).
      rewrite Hes0.
      destruct r as [e |]; destruct Hr as [Hk' Hes]; (split; [lia |]).
      * destruct k as [| k]; [lia |].
        replace (S (S k) - 1) with (S k) by lia.
        replace (S k - 1) with k in Hes by lia.
        exact Hes.
      * exact Hes.
Qed.

Lemma new_actions_of_trace (w w' : World) (l : list Action) :
  trace w' = trace w ++ l → new_actions w w' = l.
Proof. intros Htr. unfold new_actions. by rewrite Htr, drop_app_length. Qed.



(** The same run, evaluated: the second of three entries fails, the
    first is in the store and the third was never tried. *)
Example addToCluster_partial_publication_sample :
  let r := addToCluster
             (Sample.with_returns (Sample.refuses_table "overlay_fdb"))
             (Sample.anonymous_on Sample.overlay (Some Sample.three_entries))
             Sample.clustered in
  returned r = Some (Some "entry exists") ∧
  trace (world_of r) =
    [CallCreateEntry "overlay_peer_table" "n1" "e1" [x01; x02];
     CallCreateEntry "overlay_fdb" "n1" "e1" [x03]] ∧
  map_to_list (store_entries (world_of r)) =
    [(("overlay_peer_table", "n1", "e1"), [x01; x02])].
Proof. vm_compute. by repeat split. Qed.

(** Once the record has been handed to the serialiser, in a state that
    has run [pre] since [w]: a nil result means it was serialised and
    created, and then every driver-table entry. *)
Lemma publish_record_run (X : Collaborators) (n : network) (eid : string)
    (rec : EndpointRecord) (tes : list tableEntry) (w w0 w' : World)
    (ag : agent) (pre : list Action) :
  c_agent (ctrl w) = Some ag →
  ctrl w0 = ctrl w →
  trace w0 = trace w ++ pre →
  (match Marshal X rec with
   | Ok buf =>
       check CreateEntry X "endpoint_table" (ID n) eid buf;
       range_CreateEntry X n tes
   | Err err => mret (Some err)
   end) (log (CallMarshal rec) w0) = Done None w' →
  ∃ buf,
    Marshal X rec = Ok buf ∧
    store_entries w' =
      created n (<[("endpoint_table", ID n, eid) := buf]> (store_entries w)) tes ∧
    new_actions w w' =
      pre ++ [CallMarshal rec; CallCreateEntry "endpoint_table" (ID n) eid buf]
      ++ (create_call n <$> tes).
Proof.
  intros Hag Hc Htr0.
  assert (Hes0 : store_entries w = entries (networkDB ag))
    by (unfold store_entries; by rewrite Hag).
  destruct (Marshal X rec) as [buf | e]; run; [| done].
  assert (Hag0 : c_agent (ctrl (log (CallMarshal rec) w0)) = Some ag)
    by (cbn [log ctrl]; by rewrite Hc).
  run_store Hag0. case_returns; run; [done |].
  match goal with
  | |- context [range_CreateEntry _ _ _ ?W] =>
      destruct (range_CreateEntry_prefix X n tes W _ eq_refl)
        as (r & w1 & k & -> & Hk & Htr & Hr)
  end.
  intros [= -> ->]. destruct Hr as [-> Hes].
  exists buf. split; [done |]. split.
  - by rewrite Hes, store_entries_with_db, Hes0.
  - apply new_actions_of_trace. rewrite Htr. cbn [trace log with_agent].
    rewrite Htr0, firstn_all. by rewrite <- !app_assoc.
Qed.

(** X9.  When addToCluster returns nil for a non-anonymous endpoint with
    an interface address (eligible network, join information present),
    the record was serialised to some [buf] and the store is the old
    store with [buf] under the endpoint's "endpoint_table" key and then
    the driver-table entries written in order, nothing else changed.
    The calls were, in order: the service binding if the endpoint has a
    service id, the serialisation, the CreateEntry of the record and one
    CreateEntry per driver-table entry.  Without a service id the record
    carries no ingress ports, even on the ingress network. *)
Theorem addToCluster_publishes_record_then_entries
    (X : Collaborators) (w w' : World) (ep : endpoint) (ji : endpointJoinInfo)
    (address : IPNet)
    (Hel : isClusterEligible (ctrl w) (getNetwork ep) = true)
    (Hji : joinInfo ep = Some ji)
    (Hanon : isAnonymous ep = false)
    (Haddr : Iface_Address ep = Some address)
    (Hrun : addToCluster X ep w = Done None w') :
  let n := getNetwork ep in
  let rec := endpoint_record X ep address (gossiped_ports ep) in
  ∃ buf,
    Marshal X rec = Ok buf ∧
    store_entries w' =
      created n (<[endpoint_key ep := buf]> (store_entries w))
              (driverTableEntries ji) ∧
    new_actions w w' =
      binding_call ep address
      ++ [CallMarshal rec;
          CallCreateEntry "endpoint_table" (ID n) (ep_ID ep) buf]
      ++ (create_call n <$> driverTableEntries ji).
Proof.
  intros n rec. destruct (isClusterEligible_agent _ _ Hel) as [ag Hag].
  revert Hrun. unfold addToCluster. run. rewrite Hel, Hji, Hanon, Haddr. run.
  subst rec. unfold binding_call, gossiped_ports, endpoint_record. fold n.
  destruct (decide (svcID ep ≠ "")) as [Hsvc | Hsvc].
  - unfold addServiceBinding. run. case_returns; run; [done |].
    intros Hrun.
    exact (publish_record_run X n (ep_ID ep) _ _ w (log _ w) w' ag [_]
             Hag eq_refl eq_refl Hrun).
  - intros Hrun.
    apply (publish_record_run X n (ep_ID ep) _ _ w w w' ag [] Hag eq_refl);
      [by rewrite app_nil_r | done].
Qed.

Lemma addToCluster_publishes_record_then_entries_witness :
  isClusterEligible (ctrl Sample.clustered) Sample.overlay = true ∧
  ∃ buf,
    Marshal Sample.node
      (endpoint_record Sample.node
         (Sample.web_on Sample.overlay
            (Some {| driverTableEntries := [Sample.peer_entry] |}))
         {| IPNet_IP := Sample.ip_10_0_0_5; IPNet_Mask := [xff; xff; xff; x00] |}
         (gossiped_ports
            (Sample.web_on Sample.overlay
               (Some {| driverTableEntries := [Sample.peer_entry] |}))))
      = Ok buf.
Proof.
  split; [reflexivity |].
  destruct (addToCluster_publishes_record_then_entries
              Sample.node Sample.clustered
              (world_of
                 (addToCluster Sample.node
                    (Sample.web_on Sample.overlay
                       (Some {| driverTableEntries := [Sample.peer_entry] |}))
                    Sample.clustered))
              (Sample.web_on Sample.overlay
                 (Some {| driverTableEntries := [Sample.peer_entry] |}))
              {| driverTableEntries := [Sample.peer_entry] |}
              {| IPNet_IP := Sample.ip_10_0_0_5;
                 IPNet_Mask := [xff; xff; xff; x00] |}
              eq_refl eq_refl eq_refl eq_refl eq_refl)
    as (buf & Hbuf & _).
  exists buf. exact Hbuf.
Defined.

(** The publication of the sample endpoint, evaluated. *)
Example addToCluster_sample :
  let ep := Sample.web_on Sample.overlay
              (Some {| driverTableEntries := [Sample.peer_entry] |}) in
  let r := addToCluster Sample.node ep Sample.clustered in
  returned r = Some None ∧
  map_to_list (store_entries (world_of r)) =
    [(("overlay_peer_table", "n1", "e1"), [x01; x02]);
     (("endpoint_table", "n1", "e1"), Sample.web_record)].
Proof. vm_compute. by split. Qed.

(** X10.  When deleteFromCluster returns nil on an eligible network, for
    an endpoint with join information, the store is the old store
    without the driver-table entries and, for a non-anonymous endpoint,
    without its "endpoint_table" entry; nothing else changed.  The calls
    were, in order: for a non-anonymous endpoint the removal of the
    service binding (service id set and address resolved) and the
    DeleteEntry of the record, then one DeleteEntry per driver-table
    entry.  The record is deleted for every non-anonymous endpoint, also
    one without address, which addToCluster never published. *)
Theorem deleteFromCluster_retracts_record_then_entries
    (X : Collaborators) (w w' : World) (ep : endpoint) (ji : endpointJoinInfo)
    (Hel : isClusterEligible (ctrl w) (getNetwork ep) = true)
    (Hji : joinInfo ep = Some ji)
    (Hrun : deleteFromCluster X ep w = Done None w') :
  let n := getNetwork ep in
  store_entries w' =
    deleted n (if isAnonymous ep then store_entries w
               else delete (endpoint_key ep) (store_entries w))
            (driverTableEntries ji) ∧
  new_actions w w' =
    (if isAnonymous ep then []
     else unbinding_call ep
          ++ [CallDeleteEntry "endpoint_table" (ID n) (ep_ID ep)])
    ++ (delete_call n <$> driverTableEntries ji).
Proof.
  intros n. destruct (isClusterEligible_agent _ _ Hel) as [ag Hag].
  assert (Hes0 : store_entries w = entries (networkDB ag))
    by (unfold store_entries; by rewrite Hag).
  revert Hrun. unfold deleteFromCluster. run. rewrite Hel, Hji. run. fold n.
  destruct (isAnonymous ep) eqn:Hanon; run.
  { destruct (range_DeleteEntry_prefix X n (driverTableEntries ji) w ag Hag)
      as (r & w1 & k & -> & Hk & Htr & Hr).
    intros [= -> ->]. destruct Hr as [-> Hes]. split; [done |].
    apply new_actions_of_trace. by rewrite Htr, firstn_all. }
  (* from the deletion of the record on, in a state [w0] that has run [pre] *)
  assert (Hrest : ∀ w0 pre,
            ctrl w0 = ctrl w → trace w0 = trace w ++ pre →
            (check DeleteEntry X "endpoint_table" (ID n) (ep_ID ep);
             range_DeleteEntry X n (driverTableEntries ji)) w0 = Done None w' →
            store_entries w' =
              deleted n (delete (endpoint_key ep) (store_entries w))
                      (driverTableEntries ji) ∧
            new_actions w w' =
              (pre ++ [CallDeleteEntry "endpoint_table" (ID n) (ep_ID ep)])
              ++ (delete_call n <$> driverTableEntries ji)).
  { intros w0 pre Hc Htr0. run.
    assert (Hag0 : c_agent (ctrl w0) = Some ag) by (by rewrite Hc).
    run_store Hag0. case_returns; run; [done |].
    match goal with
    | |- context [range_DeleteEntry _ _ _ ?W] =>
        destruct (range_DeleteEntry_prefix X n (driverTableEntries ji) W _ eq_refl)
          as (r & w1 & k & -> & Hk & Htr & Hr)
    end.
    intros [= -> ->]. destruct Hr as [-> Hes]. split.
    - rewrite Hes, store_entries_with_db, Hes0. done.
    - apply new_actions_of_trace. rewrite Htr. cbn [trace log with_agent].
      rewrite Htr0, firstn_all. by rewrite <- !app_assoc. }
  unfold unbinding_call.
  destruct (decide (svcID ep ≠ "")) as [Hsvc | Hsvc];
    [destruct (Iface_Address ep) as [address |] |].
  - unfold rmServiceBinding. run. case_returns; run; [done |].
    apply Hrest; [done | done].
  - intros Hrun. apply (Hrest w []); [done | by rewrite app_nil_r | done].
  - intros Hrun. apply (Hrest w []); [done | by rewrite app_nil_r | done].
Qed.

Lemma deleteFromCluster_retracts_record_then_entries_witness :
  isClusterEligible (ctrl Sample.clustered) Sample.overlay = true ∧
  new_actions Sample.clustered
    (world_of
       (deleteFromCluster Sample.node
          (Sample.web_on Sample.overlay
             (Some {| driverTableEntries := [Sample.peer_entry] |}))
          Sample.clustered)) =
  (unbinding_call
     (Sample.web_on Sample.overlay
        (Some {| driverTableEntries := [Sample.peer_entry] |}))
   ++ [CallDeleteEntry "endpoint_table" "n1" "e1"])
  ++ (delete_call Sample.overlay <$> [Sample.peer_entry]).
Proof.
  split; [reflexivity |].
  apply (deleteFromCluster_retracts_record_then_entries
           Sample.node Sample.clustered
           (world_of
              (deleteFromCluster Sample.node
                 (Sample.web_on Sample.overlay
                    (Some {| driverTableEntries := [Sample.peer_entry] |}))
                 Sample.clustered))
           (Sample.web_on Sample.overlay
              (Some {| driverTableEntries := [Sample.peer_entry] |}))
           {| driverTableEntries := [Sample.peer_entry] |}
           eq_refl eq_refl eq_refl).
Defined.

(** Retracting the endpoint leaves the entry of another endpoint in the
    same table where it was. *)
Example deleteFromCluster_sample :
  let ji := {| driverTableEntries := [Sample.peer_entry] |} in
  let ep := Sample.web_on Sample.overlay (Some ji) in
  let w := Sample.clustered_with
             {[("endpoint_table", "n1", "e1") := Sample.web_record;
               ("endpoint_table", "n1", "e2") := Sample.web_record;
               ("overlay_peer_table", "n1", "e1") := [x01; x02]]} in
  map_to_list (store_entries (world_of (deleteFromCluster Sample.node ep w))) =
    [(("endpoint_table", "n1", "e2"), Sample.web_record)].
Proof. vm_compute. reflexivity. Qed.

(** ** Every watch registered is recorded *)

Lemma watch_handles_app (l1 l2 : list Action) :
  watch_handles (l1 ++ l2) = watch_handles l1 ++ watch_handles l2.
Proof. apply omap_app. Qed.

Lemma watch_handles_notified (n : network) (tname : string)
    (es : gmap (string * string * string) bytes) :
  watch_handles (notified n tname es) = [].
Proof.
  unfold notified. induction (table_entries tname es) as [| e l IH]; [done |].
  exact IH.
Qed.

(** The loop of addDriverWatches, whatever the driver resolution gives:
    the handles of the watches it registered are fresh, consecutive, and
    appended in order to those recorded for the network. *)
Lemma addDriverWatches_range_records (X : Collaborators) (n : network)
    (tables : list string) (w : World) (ag : agent) :
  c_agent (ctrl w) = Some ag →
  ∃ w' ag' l,
    addDriverWatches_range X n tables w = Done tt w' ∧
    c_agent (ctrl w') = Some ag' ∧
    trace w' = trace w ++ l ∧
    watch_handles l = seq (nextWatch (networkDB ag)) (length (watch_handles l)) ∧
    length (watch_handles l) ≤ length tables ∧
    nextWatch (networkDB ag') =
      nextWatch (networkDB ag) + length (watch_handles l) ∧
    default [] (driverCancelFuncs ag' !! ID n) =
      default [] (driverCancelFuncs ag !! ID n) ++ watch_handles l ∧
    (∀ nid, nid ≠ ID n →
       driverCancelFuncs ag' !! nid = driverCancelFuncs ag !! nid) ∧
    (∀ h, h ∈ watch_handles l →
       ∃ tname, tname ∈ tables ∧
                watches (networkDB ag') !! h = Some (tname, ID n, "")) ∧
    (∀ h, h < nextWatch (networkDB ag) →
       watches (networkDB ag') !! h = watches (networkDB ag) !! h).
Proof.
  revert w ag. induction tables as [| tname tables IH]; intros w ag Hag.
  - exists w, ag, []. cbn. rewrite app_nil_r. repeat split; try done.
    + by rewrite app_nil_r.
    + intros h Hh. by apply elem_of_nil in Hh.
  - cbn [addDriverWatches_range].
    rewrite run_bind, (run_Watch _ _ _ w ag Hag). run.
    erewrite run_the_agent by reflexivity. run.
    erewrite run_set_driverCancelFuncs by reflexivity. run.
    unfold driver. run. case_returns; run.
    + (* the driver does not resolve: one watch, recorded *)
      eexists _, _,
        [CallWatch tname (ID n) "" (nextWatch (networkDB ag));
         Lock; LoadCancelFuncs (ID n); StoreCancelFuncs (ID n); Unlock;
         GoHandleTableEvents (nextWatch (networkDB ag))
           (handleDriverTableEvent_fn (ID n));
         CallDriver (ID n);
         Errorf "Could not resolve driver %s while walking driver tabl: %v"].
      split; [reflexivity |]. split; [reflexivity |].
      split; [cbn [trace log with_agent]; by rewrite <- !app_assoc |].
      change (watch_handles _) with [nextWatch (networkDB ag)].
      cbn [length seq agent_with_cancelFuncs agent_with_db driverCancelFuncs
           networkDB nextWatch NetworkDB_Watch snd watches].
      repeat split.
      * lia.
      * lia.
      * by rewrite lookup_insert_eq.
      * intros nid Hnid. by rewrite lookup_insert_ne.
      * intros h ->%list_elem_of_singleton. exists tname.
        split; [left | by rewrite lookup_insert_eq].
      * intros h Hh. apply lookup_insert_ne. lia.
    + (* the table is walked and the loop goes on *)
      erewrite run_WalkTable_notify by reflexivity. run.
      match goal with
      | |- context [addDriverWatches_range _ _ _ ?W] =>
          destruct (IH W _ eq_refl)
            as (w' & ag' & l & -> & Hag' & Htr & Hseq & Hlen & Hnext & Hrec
                & Hother & Hopen & Hold)
      end.
      cbn [agent_with_cancelFuncs agent_with_db driverCancelFuncs networkDB
           nextWatch NetworkDB_Watch snd watches entries]
        in Hseq, Hnext, Hrec, Hother, Hopen, Hold.
      exists w', ag'.
      exists ([CallWatch tname (ID n) "" (nextWatch (networkDB ag));
               Lock; LoadCancelFuncs (ID n); StoreCancelFuncs (ID n); Unlock;
               GoHandleTableEvents (nextWatch (networkDB ag))
                 (handleDriverTableEvent_fn (ID n));
               CallDriver (ID n); CallWalkTable tname]
              ++ notified n tname (entries (networkDB ag)) ++ l).
      assert (Hhs : watch_handles
                ([CallWatch tname (ID n) "" (nextWatch (networkDB ag));
                  Lock; LoadCancelFuncs (ID n); StoreCancelFuncs (ID n); Unlock;
                  GoHandleTableEvents (nextWatch (networkDB ag))
                    (handleDriverTableEvent_fn (ID n));
                  CallDriver (ID n); CallWalkTable tname]
                 ++ notified n tname (entries (networkDB ag)) ++ l)
              = nextWatch (networkDB ag) :: watch_handles l).
      { rewrite !watch_handles_app, watch_handles_notified. done. }
      rewrite Hhs. cbn [length seq].
      split; [done |]. split; [done |].
      split; [rewrite Htr; cbn [trace log with_agent];
              rewrite <- !app_assoc; reflexivity |].
      repeat split.
      * by rewrite <- Hseq.
      * lia.
      * lia.
      * rewrite Hrec, lookup_insert_eq. cbn. by rewrite <- app_assoc.
      * intros nid Hnid. by rewrite Hother, lookup_insert_ne.
      * intros h [-> | Hh]%elem_of_cons.
        -- exists tname. split; [left |].
           rewrite Hold by lia. by rewrite lookup_insert_eq.
        -- destruct (Hopen h Hh) as (t & Ht & Hw). exists t.
           split; [by right | done].
      * intros h Hh. rewrite Hold by lia. apply lookup_insert_ne. lia.
Qed.

(** X11.  Whatever the driver resolution returns, every watch that
    addDriverWatches registers on an eligible network is recorded: the
    handles of its Watch calls are appended, in order, to the cancel
    functions already recorded for the network, those of other networks
    are left alone, and each of the new handles is an open subscription
    scoped to one of the declared tables, the network's id and no key.
    There is at most one per declared table and no handle is recorded
    twice. *)
Theorem addDriverWatches_records_every_watch
    (X : Collaborators) (w : World) (n : network)
    (Hel : isClusterEligible (ctrl w) n = true) :
  ∃ w',
    addDriverWatches X n w = Done tt w' ∧
    let hs := watch_handles (new_actions w w') in
    recorded (ID n) w' = recorded (ID n) w ++ hs ∧
    (∀ nid, nid ≠ ID n → recorded nid w' = recorded nid w) ∧
    (∀ h, h ∈ hs →
       ∃ tname, tname ∈ driverTables n ∧
                open_watch w' h = Some (tname, ID n, "")) ∧
    length hs ≤ length (driverTables n) ∧
    NoDup hs.
Proof.
  destruct (isClusterEligible_agent _ _ Hel) as [ag Hag].
  destruct (addDriverWatches_range_records X n (driverTables n) w ag Hag)
    as (w' & ag' & l & Hrun & Hag' & Htr & Hseq & Hlen & _ & Hrec & Hother
        & Hopen & _).
  exists w'. split; [unfold addDriverWatches; run; by rewrite Hel |].
  rewrite (new_actions_of_trace w w' l Htr). cbv zeta.
  unfold recorded, open_watch. rewrite Hag, Hag'.
  repeat split; try done.
  - intros nid Hnid. by rewrite Hother.
  - rewrite Hseq. apply NoDup_seq.
Qed.

Lemma addDriverWatches_records_every_watch_witness :
  isClusterEligible (ctrl Sample.clustered) Sample.overlay = true ∧
  ∃ w', addDriverWatches Sample.node Sample.overlay Sample.clustered
          = Done tt w' ∧
        recorded "n1" w' =
          recorded "n1" Sample.clustered
          ++ watch_handles (new_actions Sample.clustered w').
Proof.
  split; [reflexivity |].
  destruct (addDriverWatches_records_every_watch
              Sample.node Sample.clustered Sample.overlay eq_refl)
    as (w' & Hrun & Hrec & _).
  exists w'. split; [exact Hrun | exact Hrec].
Defined.

(** ** Cancelling, and cancelling again *)

Lemma cancelDriverWatches_run (w : World) (n : network) (ag : agent) :
  isClusterEligible (ctrl w) n = true →
  c_agent (ctrl w) = Some ag →
  ∃ w' ag',
    cancelDriverWatches n w = Done tt w' ∧
    c_agent (ctrl w') = Some ag' ∧
    trace w' = trace w ++
      [Lock; LoadCancelFuncs (ID n); DeleteCancelFuncs (ID n); Unlock]
      ++ (CallCancel <$> default [] (driverCancelFuncs ag !! ID n)) ∧
    driverCancelFuncs ag' = delete (ID n) (driverCancelFuncs ag) ∧
    (∀ h, h ∈ default [] (driverCancelFuncs ag !! ID n) →
          watches (networkDB ag') !! h = None).
Proof.
  intros Hel Hag. unfold cancelDriverWatches. run. rewrite Hel. run.
  erewrite run_the_agent by exact Hag. run.
  erewrite run_set_driverCancelFuncs by exact Hag. run.
  match goal with
  | |- context [range_cancel ?hs ?W] =>
      destruct (range_cancel_spec hs W _ eq_refl)
        as (w' & ag' & Hrun & Hag' & Hfuncs & Htr & _ & Hclosed)
  end.
  rewrite Hrun. exists w', ag'. repeat split; try done.
  rewrite Htr. cbn [trace log with_agent]. by rewrite <- !app_assoc.
Qed.

(** X12.  On an eligible network cancelDriverWatches invokes exactly the
    cancel functions recorded for the network, in the order recorded,
    leaves none recorded and their watches closed, and does not touch
    the handles recorded for other networks.  A second call finds
    nothing to cancel: no cancel function is ever invoked twice. *)
Theorem cancelDriverWatches_twice
    (w : World) (n : network)
    (Hel : isClusterEligible (ctrl w) n = true) :
  ∃ w1 w2,
    cancelDriverWatches n w = Done tt w1 ∧
    new_actions w w1 =
      [Lock; LoadCancelFuncs (ID n); DeleteCancelFuncs (ID n); Unlock]
      ++ (CallCancel <$> recorded (ID n) w) ∧
    recorded (ID n) w1 = [] ∧
    (∀ nid, nid ≠ ID n → recorded nid w1 = recorded nid w) ∧
    (∀ h, h ∈ recorded (ID n) w → open_watch w1 h = None) ∧
    cancelDriverWatches n w1 = Done tt w2 ∧
    new_actions w1 w2 =
      [Lock; LoadCancelFuncs (ID n); DeleteCancelFuncs (ID n); Unlock].
Proof.
  destruct (isClusterEligible_agent _ _ Hel) as [ag Hag].
  destruct (cancelDriverWatches_run w n ag Hel Hag)
    as (w1 & ag1 & Hrun1 & Hag1 & Htr1 & Hfuncs1 & Hclosed1).
  assert (Hel1 : isClusterEligible (ctrl w1) n = true).
  { apply isClusterEligible_true. apply isClusterEligible_true in Hel as [? _].
    split; [done | by rewrite Hag1]. }
  destruct (cancelDriverWatches_run w1 n ag1 Hel1 Hag1)
    as (w2 & ag2 & Hrun2 & Hag2 & Htr2 & _).
  exists w1, w2. unfold recorded, open_watch. rewrite Hag, Hag1.
  split; [done |]. split; [by apply new_actions_of_trace |].
  split; [by rewrite Hfuncs1, lookup_delete_eq |].
  split; [intros nid Hnid; by rewrite Hfuncs1, lookup_delete_ne |].
  split; [done |]. split; [done |].
  apply new_actions_of_trace. rewrite Htr2, Hfuncs1, lookup_delete_eq. cbn.
  done.
Qed.

Lemma cancelDriverWatches_twice_witness :
  isClusterEligible (ctrl Sample.clustered) Sample.overlay = true ∧
  ∃ w1 w2,
    cancelDriverWatches Sample.overlay Sample.clustered = Done tt w1 ∧
    cancelDriverWatches Sample.overlay w1 = Done tt w2 ∧
    new_actions w1 w2 =
      [Lock; LoadCancelFuncs "n1"; DeleteCancelFuncs "n1"; Unlock].
Proof.
  split; [reflexivity |].
  destruct (cancelDriverWatches_twice Sample.clustered Sample.overlay eq_refl)
    as (w1 & w2 & Hrun1 & _ & _ & _ & _ & Hrun2 & Hnew).
  exists w1, w2. split; [exact Hrun1 |]. split; [exact Hrun2 | exact Hnew].
Defined.

(** X13.  Watches do not leak: on an eligible network, whatever the
    driver resolution returns, every watch registered by addDriverWatches
    is cancelled by the cancelDriverWatches that follows, once, after
    which it is closed and the network has no cancel function recorded. *)
Theorem addDriverWatches_then_cancel_closes_every_watch
    (X : Collaborators) (w : World) (n : network)
    (Hel : isClusterEligible (ctrl w) n = true) :
  ∃ w1 w2,
    addDriverWatches X n w = Done tt w1 ∧
    cancelDriverWatches n w1 = Done tt w2 ∧
    new_actions w1 w2 =
      [Lock; LoadCancelFuncs (ID n); DeleteCancelFuncs (ID n); Unlock]
      ++ (CallCancel <$> (recorded (ID n) w
                          ++ watch_handles (new_actions w w1))) ∧
    recorded (ID n) w2 = [] ∧
    ∀ h, h ∈ watch_handles (new_actions w w1) → open_watch w2 h = None.
Proof.
  destruct (isClusterEligible_agent _ _ Hel) as [ag Hag].
  destruct (addDriverWatches_range_records X n (driverTables n) w ag Hag)
    as (w1 & ag1 & l & Hrun & Hag1 & Htr & _ & _ & _ & Hrec & _).
  assert (Hel1 : isClusterEligible (ctrl w1) n = true).
  { apply isClusterEligible_true. apply isClusterEligible_true in Hel as [? _].
    split; [done | by rewrite Hag1]. }
  destruct (cancelDriverWatches_run w1 n ag1 Hel1 Hag1)
    as (w2 & ag2 & Hrun2 & Hag2 & Htr2 & Hfuncs2 & Hclosed2).
  exists w1, w2. rewrite (new_actions_of_trace w w1 l Htr).
  unfold recorded, open_watch. rewrite Hag, Hag2.
  split; [unfold addDriverWatches; run; by rewrite Hel |].
  split; [done |].
  split; [apply new_actions_of_trace; by rewrite Htr2, Hrec |].
  split; [by rewrite Hfuncs2, lookup_delete_eq |].
  intros h Hh. apply Hclosed2. rewrite Hrec, elem_of_app. by right.
Qed.

Lemma addDriverWatches_then_cancel_closes_every_watch_witness :
  isClusterEligible (ctrl Sample.clustered) Sample.overlay = true ∧
  ∃ w1 w2,
    addDriverWatches Sample.node Sample.overlay Sample.clustered = Done tt w1 ∧
    cancelDriverWatches Sample.overlay w1 = Done tt w2 ∧
    recorded "n1" w2 = [].
Proof.
  split; [reflexivity |].
  destruct (addDriverWatches_then_cancel_closes_every_watch
              Sample.node Sample.clustered Sample.overlay eq_refl)
    as (w1 & w2 & Hrun1 & Hrun2 & _ & Hrec & _).
  exists w1, w2. split; [exact Hrun1 |]. split; [exact Hrun2 | exact Hrec].
Defined.

(** With a driver that does not resolve the one watch registered before
    the failure is still recorded, and cancelled. *)
Example unresolved_driver_watch_is_cancelled :
  let X := Sample.with_returns
             (λ _ a, match a with
                     | CallDriver _ => Some "driver not found"
                     | _ => None
                     end) in
  let w1 := world_of (addDriverWatches X Sample.overlay Sample.clustered) in
  let w2 := world_of (cancelDriverWatches Sample.overlay w1) in
  recorded "n1" w1 = [1] ∧
  open_watch w1 1 = Some ("overlay_peer_table", "n1", "") ∧
  new_actions w1 w2 =
    [Lock; LoadCancelFuncs "n1"; DeleteCancelFuncs "n1"; Unlock; CallCancel 1] ∧
  open_watch w2 1 = None.
Proof. vm_compute. by repeat split. Qed.

(** ** The dispatch loops *)

(** X14.  While the network's driver resolves, the dispatch loop of a
    driver-table watch forwards every event of the channel, in channel
    order, as one EventNotify carrying the event's table, key and value
    and the id of the watching network (not the id in the event); Create
    is forwarded as Create, Delete and Update both as Delete.  It
    returns when the channel is closed, with the controller as it was. *)
Theorem handleDriverTableEvent_forwards_every_event
    (X : Collaborators) (w : World) (n : network) (ch : list Event)
    (Hdrv : ∀ w0, returns X w0 (CallDriver (ID n)) = None) :
  ∃ w',
    handleTableEvents ch (handleDriverTableEvent X n) w = Done tt w' ∧
    ctrl w' = ctrl w ∧
    new_actions w w' =
      concat ((λ ev, [CallDriver (ID n); driver_notification n ev]) <$> ch).
Proof.
  cut (∃ w', handleTableEvents ch (handleDriverTableEvent X n) w = Done tt w' ∧
             ctrl w' = ctrl w ∧
             trace w' = trace w ++
               concat ((λ ev, [CallDriver (ID n); driver_notification n ev])
                       <$> ch)).
  { intros (w' & Hrun & Hc & Htr). exists w'.
    split; [done |]. split; [done | by apply new_actions_of_trace]. }
  revert w. induction ch as [| ev ch IH]; intros w.
  - exists w. cbn. by rewrite app_nil_r.
  - cbn [handleTableEvents]. rewrite run_bind.
    assert (Hev : handleDriverTableEvent X n ev w =
              Done tt (log (driver_notification n ev)
                         (log (CallDriver (ID n)) w))).
    { unfold handleDriverTableEvent, driver. run. rewrite Hdrv.
      by destruct ev. }
    rewrite Hev. cbn beta iota.
    destruct (IH (log (driver_notification n ev) (log (CallDriver (ID n)) w)))
      as (w' & -> & Hc & Htr).
    exists w'. split; [done |]. split; [done |].
    rewrite Htr. cbn [trace log fmap list_fmap concat].
    by rewrite <- !app_assoc.
Qed.

Lemma handleDriverTableEvent_forwards_every_event_witness :
  (∀ w0, returns Sample.node w0 (CallDriver "n1") = None) ∧
  new_actions Sample.clustered
    (world_of
       (handleTableEvents
          [UpdateEvent {| Table := "overlay_peer_table"; NetworkID := "n7";
                          Key := "e1"; Value := [x01] |}]
          (handleDriverTableEvent Sample.node Sample.overlay)
          Sample.clustered)) =
  [CallDriver "n1";
   CallEventNotify Delete "n1" "overlay_peer_table" "e1" [x01]].
Proof.
  split; [intros w0; reflexivity |].
  destruct (handleDriverTableEvent_forwards_every_event
              Sample.node Sample.clustered Sample.overlay
              [UpdateEvent {| Table := "overlay_peer_table"; NetworkID := "n7";
                              Key := "e1"; Value := [x01] |}]
              (λ _, eq_refl))
    as (w' & Hrun & _ & Hnew).
  rewrite Hrun. exact Hnew.
Defined.

(** X15.  A Create or Delete event of the endpoint table whose network
    is known and whose value is a well-formed record (it deserialises,
    with a name and a parsable endpoint IP) is applied as follows.  With
    a service id the service binding is added (Create) or removed
    (Delete) first, under the network id and key of the event, and only
    if that succeeds is the name record added or removed; if it fails
    the failure is logged and the name record is left alone.  Without a
    service id only the name record is added or removed. *)
Theorem handleEpTableEvent_applies_wellformed_event
    (X : Collaborators) (w : World) (event : TableEvent) (n : network)
    (epRec : EndpointRecord)
    (Hnet : networks (ctrl w) !! NetworkID event = Some n)
    (Hrec : Unmarshal X (Value event) = Ok epRec)
    (Hname : Name epRec ≠ "")
    (Hip : ParseIP X (EndpointIP epRec) ≠ []) :
  let ip := ParseIP X (EndpointIP epRec) in
  let vip := ParseIP X (VirtualIP epRec) in
  let w2 := log (CallUnmarshal (Value event))
                (log (CallNetworkByID (NetworkID event)) w) in
  let add := CallAddServiceBinding (ServiceName epRec) (ServiceID epRec)
               (NetworkID event) (Key event) vip (IngressPorts epRec) ip in
  let rm := CallRmServiceBinding (ServiceName epRec) (ServiceID epRec)
              (NetworkID event) (Key event) vip (IngressPorts epRec) ip in
  new_actions w (world_of (handleEpTableEvent X (CreateEvent event) w)) =
    [CallNetworkByID (NetworkID event); CallUnmarshal (Value event)]
    ++ (if decide (ServiceID epRec ≠ "")
        then [add;
              match returns X w2 add with
              | None => CallAddSvcRecords (ID n) (Name epRec) ip
              | Some _ => Errorf "Failed adding service binding for value %s: %v"
              end]
        else [CallAddSvcRecords (ID n) (Name epRec) ip]) ∧
  new_actions w (world_of (handleEpTableEvent X (DeleteEvent event) w)) =
    [CallNetworkByID (NetworkID event); CallUnmarshal (Value event)]
    ++ (if decide (ServiceID epRec ≠ "")
        then [rm;
              match returns X w2 rm with
              | None => CallDeleteSvcRecords (ID n) (Name epRec) ip
              | Some _ => Errorf "Failed adding service binding for value %s: %v"
              end]
        else [CallDeleteSvcRecords (ID n) (Name epRec) ip]).
Proof.
  intros ip vip w2 add rm.
  assert (Hgood : bool_decide (Name epRec = "")
                  || bool_decide (ParseIP X (EndpointIP epRec) = []) = false).
  { rewrite bool_decide_eq_false_2 by done.
    by rewrite bool_decide_eq_false_2 by done. }
  split.
  - unfold handleEpTableEvent, handleEpTableEvent_lookup, NetworkByID, get. run.
    rewrite Hnet. run. rewrite Hrec. run. rewrite Hgood.
    destruct (decide (ServiceID epRec ≠ "")); unfold addServiceBinding; run.
    + fold ip vip. fold w2. fold add.
      destruct (returns X w2 add); run; subst w2; by new_actions.
    + by new_actions.
  - unfold handleEpTableEvent, handleEpTableEvent_lookup, NetworkByID, get. run.
    rewrite Hnet. run. rewrite Hrec. run. rewrite Hgood.
    destruct (decide (ServiceID epRec ≠ "")); unfold rmServiceBinding; run.
    + fold ip vip. fold w2. fold rm.
      destruct (returns X w2 rm); run; subst w2; by new_actions.
    + by new_actions.
Qed.

Lemma handleEpTableEvent_applies_wellformed_event_witness :
  networks (ctrl Sample.clustered) !! "n1" = Some Sample.overlay ∧
  new_actions Sample.clustered
    (world_of
       (handleEpTableEvent Sample.node
          (DeleteEvent {| Table := "endpoint_table"; NetworkID := "n1";
                          Key := "e1"; Value := Sample.web_record |})
          Sample.clustered)) =
  [CallNetworkByID "n1"; CallUnmarshal Sample.web_record;
   CallDeleteSvcRecords "n1" "web" Sample.ip_10_0_0_5].
Proof.
  split; [reflexivity |].
  apply (handleEpTableEvent_applies_wellformed_event
           Sample.node Sample.clustered
           {| Table := "endpoint_table"; NetworkID := "n1";
              Key := "e1"; Value := Sample.web_record |}
           Sample.overlay
           {| Name := "web"; ServiceName := ""; ServiceID := "";
              VirtualIP := ""; IngressPorts := []; EndpointIP := "10.0.0.5" |}
           eq_refl eq_refl);
    discriminate.
Defined.

(** Split a run that always returns at its binds and branches. *)
Ltac returns_locally :=
  repeat lazymatch goal with
    | |- ensures _ (mbind _ _) => rapply ensures_bind; [| intros ?]
    | |- ensures _ (mret _) => rapply ensures_ret
    | |- ensures _ (call _) => apply ensures_call_only; reflexivity
    | |- ensures _ (fallible _ _) => apply ensures_fallible_only; reflexivity
    | |- ensures _ (NetworkByID _) =>
        apply ensures_NetworkByID_only; reflexivity
    | |- ensures _ (match ?x with _ => _ end) => destruct x eqn:?
    end.

Lemma ensures_handleEpTableEvent_local (X : Collaborators) (ev : Event) :
  ensures (only_did is_local) (handleEpTableEvent X ev).
Proof.
  unfold handleEpTableEvent, handleEpTableEvent_lookup,
    addServiceBinding, rmServiceBinding.
  cbv zeta. returns_locally.
Qed.

Lemma ensures_handleDriverTableEvent_local (X : Collaborators) (n : network)
    (ev : Event) :
  ensures (only_did is_local) (handleDriverTableEvent X n ev).
Proof. unfold handleDriverTableEvent, driver. returns_locally. Qed.

(** X16.  The two dispatch loops never use the agent: whatever the
    events and the collaborators' answers, and whether or not an agent
    is set, each loop returns once its channel is closed, leaves the
    controller exactly as it was, and calls nothing of the network
    database (no entry is created or deleted, no watch registered or
    cancelled). *)
Theorem dispatch_loops_make_no_store_call
    (X : Collaborators) (n : network) (ch : list Event) :
  ensures (only_did is_local) (handleTableEvents ch (handleEpTableEvent X)) ∧
  ensures (only_did is_local)
    (handleTableEvents ch (handleDriverTableEvent X n)).
Proof.
  split; rapply ensures_handleTableEvents; intros ev.
  - apply ensures_handleEpTableEvent_local.
  - apply ensures_handleDriverTableEvent_local.
Qed.

(** ** From one node's publication to its peers *)

(** The handler's run on a Create event with a well-formed record. *)
Lemma handleEpTableEvent_Create_run (Y : Collaborators) (p : World)
    (event : TableEvent) (n : network) (epRec : EndpointRecord) :
  networks (ctrl p) !! NetworkID event = Some n →
  Unmarshal Y (Value event) = Ok epRec →
  Name epRec ≠ "" →
  ParseIP Y (EndpointIP epRec) ≠ [] →
  ∃ p',
    handleEpTableEvent Y (CreateEvent event) p = Done tt p' ∧
    new_actions p p' =
      [CallNetworkByID (NetworkID event); CallUnmarshal (Value event)]
      ++ (if decide (ServiceID epRec ≠ "")
          then
            let add :=
              CallAddServiceBinding (ServiceName epRec) (ServiceID epRec)
                (NetworkID event) (Key event) (ParseIP Y (VirtualIP epRec))
                (IngressPorts epRec) (ParseIP Y (EndpointIP epRec)) in
            [add;
             match returns Y (log (CallUnmarshal (Value event))
                                (log (CallNetworkByID (NetworkID event)) p))
                     add with
             | None => CallAddSvcRecords (ID n) (Name epRec)
                         (ParseIP Y (EndpointIP epRec))
             | Some _ => Errorf "Failed adding service binding for value %s: %v"
             end]
          else [CallAddSvcRecords (ID n) (Name epRec)
                  (ParseIP Y (EndpointIP epRec))]).
Proof.
  intros Hnet Hrec Hname Hip.
  assert (Hgood : bool_decide (Name epRec = "")
                  || bool_decide (ParseIP Y (EndpointIP epRec) = []) = false).
  { rewrite bool_decide_eq_false_2 by done.
    by rewrite bool_decide_eq_false_2 by done. }
  unfold handleEpTableEvent, handleEpTableEvent_lookup, NetworkByID, get. run.
  rewrite Hnet. run. rewrite Hrec. run. rewrite Hgood.
  destruct (decide (ServiceID epRec ≠ "")); unfold addServiceBinding; run.
  - cbv zeta. case_returns; run; eexists; (split; [reflexivity |]);
      by new_actions.
  - eexists. split; [reflexivity |]. by new_actions.
Qed.

(** X17.  What a node publishes, its peers apply.  Take a non-anonymous
    endpoint with a non-empty name, join information and an interface
    address whose IP is not nil, on a cluster-eligible network.  When
    addToCluster returns nil for it, it has created the endpoint's
    record under "endpoint_table", the network's id and the endpoint's
    id.  A peer that knows the network, deserialises what the node
    serialised and parses the addresses the node printed, handles the
    Create event of that entry by making the very service-binding call
    the publishing node made for the endpoint (same service, network and
    endpoint ids, virtual IP, ingress ports and endpoint IP; none
    without a service id), and then, unless that binding fails, adds the
    name record of the endpoint's name and IP to its own network
    object; if the binding fails it logs instead. *)
Theorem peers_apply_published_record
    (X Y : Collaborators) (w w' p : World) (ep : endpoint)
    (ji : endpointJoinInfo) (address : IPNet) (n' : network)
    (Hel : isClusterEligible (ctrl w) (getNetwork ep) = true)
    (Hji : joinInfo ep = Some ji)
    (Hanon : isAnonymous ep = false)
    (Haddr : Iface_Address ep = Some address)
    (Hrun : addToCluster X ep w = Done None w')
    (Hser : ∀ buf,
        Marshal X (endpoint_record X ep address (gossiped_ports ep)) = Ok buf →
        Unmarshal Y buf = Ok (endpoint_record X ep address (gossiped_ports ep)))
    (Hip : ParseIP Y (IP_String X (IPNet_IP address)) = IPNet_IP address)
    (Hvip : ParseIP Y (IP_String X (virtualIP ep)) = virtualIP ep)
    (Hname : ep_Name ep ≠ "")
    (Hnonnil : IPNet_IP address ≠ [])
    (Hnet : networks (ctrl p) !! ID (getNetwork ep) = Some n') :
  ∃ buf p' last,
    CallCreateEntry "endpoint_table" (ID (getNetwork ep)) (ep_ID ep) buf
      ∈ new_actions w w' ∧
    handleEpTableEvent Y
      (CreateEvent {| Table := "endpoint_table";
                      NetworkID := ID (getNetwork ep);
                      Key := ep_ID ep;
                      Value := buf |}) p = Done tt p' ∧
    new_actions p p' =
      [CallNetworkByID (ID (getNetwork ep)); CallUnmarshal buf]
      ++ binding_call ep address ++ [last] ∧
    ((∀ a, a ∈ binding_call ep address →
           returns Y (log (CallUnmarshal buf)
                        (log (CallNetworkByID (ID (getNetwork ep))) p)) a
           = None) →
     last = CallAddSvcRecords (ID n') (ep_Name ep) (IPNet_IP address)) ∧
    (∀ a e, a ∈ binding_call ep address →
            returns Y (log (CallUnmarshal buf)
                         (log (CallNetworkByID (ID (getNetwork ep))) p)) a
            = Some e →
            last = Errorf "Failed adding service binding for value %s: %v").
Proof.
  destruct (isClusterEligible_agent _ _ Hel) as [ag Hag].
  assert (Hpub : ∃ buf pre,
            Marshal X (endpoint_record X ep address (gossiped_ports ep))
              = Ok buf ∧
            new_actions w w' =
              pre ++ [CallMarshal (endpoint_record X ep address
                                     (gossiped_ports ep));
                      CallCreateEntry "endpoint_table" (ID (getNetwork ep))
                        (ep_ID ep) buf]
              ++ (create_call (getNetwork ep) <$> driverTableEntries ji)).
  { revert Hrun. unfold addToCluster. run. rewrite Hel, Hji, Hanon, Haddr. run.
    unfold gossiped_ports, endpoint_record.
    destruct (decide (svcID ep ≠ "")) as [Hsvc | Hsvc].
    - unfold addServiceBinding. run. case_returns; run; [done |].
      intros Hrun.
      destruct (publish_record_run X (getNetwork ep) (ep_ID ep) _ _ w
                  (log _ w) w' ag [_] Hag eq_refl eq_refl Hrun)
        as (buf & Hbuf & _ & Hnew).
      by eexists buf, _.
    - intros Hrun.
      destruct (publish_record_run X (getNetwork ep) (ep_ID ep) _ _ w w w'
                  ag [] Hag eq_refl (eq_sym (app_nil_r _)) Hrun)
        as (buf & Hbuf & _ & Hnew).
      by eexists buf, _. }
  destruct Hpub as (buf & pre & Hbuf & Hnew).
  destruct (handleEpTableEvent_Create_run Y p
              {| Table := "endpoint_table"; NetworkID := ID (getNetwork ep);
                 Key := ep_ID ep; Value := buf |}
              n' (endpoint_record X ep address (gossiped_ports ep)))
    as (p' & Hhandle & Hdid); cbn [NetworkID Value Name EndpointIP
                                   endpoint_record]; try done.
  { by apply Hser. }
  { by rewrite Hip. }
  revert Hdid.
  cbn [NetworkID Key Value Name ServiceName ServiceID VirtualIP IngressPorts
       EndpointIP endpoint_record].
  rewrite Hip, Hvip. unfold binding_call.
  destruct (decide (svcID ep ≠ "")) as [Hsvc | Hsvc]; cbv zeta; intros Hdid.
  - eexists buf, p', _. split; [| split; [exact Hhandle | split; [exact Hdid |]]].
    + rewrite Hnew. rewrite !elem_of_app. right. left.
      apply elem_of_cons. right. apply elem_of_cons. by left.
    + split.
      * intros Hok. rewrite Hok; [done | apply elem_of_cons; by left].
      * intros a e Ha Hfail.
        apply elem_of_cons in Ha as [-> | Ha]; [| by apply elem_of_nil in Ha].
        by rewrite Hfail.
  - eexists buf, p', _. split; [| split; [exact Hhandle | split; [exact Hdid |]]].
    + rewrite Hnew. rewrite !elem_of_app. right. left.
      apply elem_of_cons. right. apply elem_of_cons. by left.
    + split; [done |]. intros a e Ha. by apply elem_of_nil in Ha.
Qed.

Lemma peers_apply_published_record_witness :
  networks (ctrl Sample.clustered) !! "n1" = Some Sample.overlay ∧
  ∃ buf,
    CallCreateEntry "endpoint_table" "n1" "e2" buf
      ∈ new_actions Sample.clustered
          (world_of
             (addToCluster Sample.node
                (Sample.plain_on Sample.overlay
                   (Some {| driverTableEntries := [] |}))
                Sample.clustered)).
Proof.
  split; [reflexivity |].
  destruct (peers_apply_published_record
              Sample.node Sample.peer Sample.clustered
              (world_of
                 (addToCluster Sample.node
                    (Sample.plain_on Sample.overlay
                       (Some {| driverTableEntries := [] |}))
                    Sample.clustered))
              Sample.clustered
              (Sample.plain_on Sample.overlay
                 (Some {| driverTableEntries := [] |}))
              {| driverTableEntries := [] |}
              {| IPNet_IP := Sample.ip_10_0_0_5;
                 IPNet_Mask := [xff; xff; xff; x00] |}
              Sample.overlay
              eq_refl eq_refl eq_refl eq_refl eq_refl
              (λ buf H, match H in (_ = r) return
                          match r with
                          | Ok b => Unmarshal Sample.peer b = _
                          | Err _ => True
                          end
                        with eq_refl => eq_refl end)
              eq_refl eq_refl
              ltac:(discriminate) ltac:(discriminate) eq_refl)
    as (buf & _ & _ & Hin & _).
  exists buf. exact Hin.
Defined.

(** ** The address drivers are told *)

(** X18.  Drivers are told the address the store is bound to.  When
    agentInit returns nil on a controller configured for clustering, the
    address it resolved is the bind address the store was started with,
    and agentDriverNotify announces exactly that address to a driver,
    once: right after agentInit and after any run that keeps the agent,
    that is after every operation but agentClose. *)
Theorem drivers_learn_the_bound_address
    (X : Collaborators) (w w1 : World) (bindAddrOrInterface : string)
    (Hcfg : isAgent (ctrl w) = true)
    (Hrun : agentInit X bindAddrOrInterface w = Done None w1) :
  ∃ addr,
    resolveAddr X bindAddrOrInterface = Ok addr ∧
    CallNew (store_config X addr) ∈ new_actions w w1 ∧
    ∀ w2, agent_kept w1 w2 →
      agentDriverNotify w2 = Done tt (log (CallDiscoverNew addr) w2).
Proof.
  revert Hrun. unfold agentInit. run. rewrite Hcfg. cbn [negb].
  destruct (resolveAddr X bindAddrOrInterface) as [addr | e]; run; [| done].
  fold (store_config X addr). case_returns; run; [done |].
  unfold set_agent. run. intros [= <-].
  exists addr. split; [done |]. split.
  - new_actions. apply elem_of_cons. by left.
  - intros w2 (_ & _ & Hag). cbn [ctrl c_agent] in Hag.
    destruct Hag as (ag2 & Hag2 & Hbind & _).
    unfold agentDriverNotify. run. rewrite Hag2. run.
    cbn [bindAddr] in Hbind. by rewrite Hbind.
Qed.

Lemma drivers_learn_the_bound_address_witness :
  isAgent (ctrl {| ctrl := {| isAgent := true; c_agent := None;
                              networks := ∅ |};
                   trace := [] |}) = true ∧
  ∃ addr,
    resolveAddr Sample.host "eth0" = Ok addr ∧
    agentDriverNotify
      (world_of
         (agentInit Sample.host "eth0"
            {| ctrl := {| isAgent := true; c_agent := None; networks := ∅ |};
               trace := [] |})) =
    Done tt
      (log (CallDiscoverNew addr)
         (world_of
            (agentInit Sample.host "eth0"
               {| ctrl := {| isAgent := true; c_agent := None;
                             networks := ∅ |};
                  trace := [] |}))).
Proof.
  split; [reflexivity |].
  destruct (drivers_learn_the_bound_address
              Sample.host
              {| ctrl := {| isAgent := true; c_agent := None; networks := ∅ |};
                 trace := [] |}
              (world_of
                 (agentInit Sample.host "eth0"
                    {| ctrl := {| isAgent := true; c_agent := None;
                                  networks := ∅ |};
                       trace := [] |}))
              "eth0" eq_refl eq_refl)
    as (addr & Haddr & _ & Hnotify).
  exists addr. split; [exact Haddr |].
  apply Hnotify. apply agent_kept_preorder.
Defined.
